(** * CCC, the Claude Code configuration manager: a shallow embedding of
    [main.go] and the properties of its configuration store and activation
    engine.

    Go strings are byte strings: they are modelled by [string], whose
    characters ([ascii]) are the bytes, so [String.length] is Go's [len]
    and [substring] is Go's slicing. *)

From Stdlib Require Import Ascii String List ZArith Lia Bool.
From stdpp Require Import base option list strings gmap sorting pretty.

Local Open Scope string_scope.
Local Open Scope list_scope.
Local Open Scope nat_scope.

(** ** The [strings] package, as far as [main.go] uses it *)

Module strings.

(** [strings.Repeat(s, n)]. *)
Fixpoint Repeat (s : string) (n : nat) : string :=
  match n with
  | O => ""
  | S k => s +:+ Repeat s k
  end.

(** [strings.HasPrefix(s, prefix)]. *)
Definition HasPrefix (s p : string) : bool := String.prefix p s.

(** [strings.TrimPrefix(s, prefix)]. *)
Definition TrimPrefix (s p : string) : string :=
  if HasPrefix s p
  then substring (String.length p) (String.length s - String.length p) s
  else s.

(** [strings.Split(s, sep)] for a separator of one byte: the fields
    between the separators, always at least one. *)
Fixpoint SplitByte (s : string) (sep : ascii) : list string :=
  match s with
  | EmptyString => [""]
  | String c r =>
      if Ascii.eqb c sep then "" :: SplitByte r sep
      else match SplitByte r sep with
           | hd :: tl => String c hd :: tl
           | [] => [String c ""]
           end
  end.

End strings.

(** ** Display formatter: [maskAPIKey] *)

(** [apiKey[i:j]] *)
Definition slice_str (s : string) (i j : nat) : string := substring i (j - i) s.

Definition maskAPIKey (apiKey : string) : string :=
  if (String.length apiKey <=? 8)%nat
  then strings.Repeat "*" (String.length apiKey)
  else slice_str apiKey 0 4
       +:+ strings.Repeat "*" (String.length apiKey - 8)
       +:+ slice_str apiKey (String.length apiKey - 4) (String.length apiKey).

(** ** Domain model *)

Record Configuration := mkConfiguration {
  Name : string;
  BaseURL : string;
  APIKey : string;
  Active : bool
}.

(** A Go slice is nil or holds a sequence; [json] tells the two apart
    ([null] against [[]]), the rest of the program only sees [elems]. *)
Abbreviation slice A := (option (list A)) (only parsing).

Definition elems {A} (s : slice A) : list A := default [] s.

(** [append(s, x)] *)
Definition append {A} (s : slice A) (x : A) : slice A := Some (elems s ++ [x]).

Record ConfigFile := mkConfigFile {
  Configurations : slice Configuration
}.

Definition profiles (config : ConfigFile) : list Configuration :=
  elems (Configurations config).

(** [findConfiguration] returns a pointer into the slice: the index of the
    first entry with the name. *)
Fixpoint find_index (l : list Configuration) (name : string) : option nat :=
  match l with
  | [] => None
  | c :: r => if String.eqb (Name c) name then Some 0 else S <$> find_index r name
  end.

Definition findConfiguration (config : ConfigFile) (name : string) : option nat :=
  find_index (profiles config) name.

Definition set_Active (b : bool) (c : Configuration) : Configuration :=
  mkConfiguration (Name c) (BaseURL c) (APIKey c) b.
Definition set_BaseURL (u : string) (c : Configuration) : Configuration :=
  mkConfiguration (Name c) u (APIKey c) (Active c).
Definition set_APIKey (k : string) (c : Configuration) : Configuration :=
  mkConfiguration (Name c) (BaseURL c) k (Active c).

Definition setActiveConfiguration (config : ConfigFile) (activeName : string) : ConfigFile :=
  mkConfigFile
    ((map (fun c => set_Active (String.eqb (Name c) activeName) c))
       <$> Configurations config).

(** ** Bytes and runes *)

Definition byte_val (c : ascii) : N := N_of_ascii c.
Definition byte_of (n : N) : ascii := ascii_of_N n.

Definition in_range (lo hi : N) (c : ascii) : bool :=
  ((lo <=? byte_val c) && (byte_val c <=? hi))%N.

(** The [unicode/utf8] package. *)
Module utf8.

Definition RuneError : N := 65533.   (* U+FFFD *)
Definition MaxRune : N := 1114111.   (* U+10FFFF *)

Definition cont (c : ascii) : bool := in_range 128 191 c.

(** [utf8.DecodeRune]: the rune at the head of [s] and its width; an
    invalid or truncated encoding gives [(RuneError, 1)]. *)
Definition DecodeRune (s : list ascii) : N * nat :=
  match s with
  | [] => (RuneError, 0)
  | b0 :: r =>
      let x0 := byte_val b0 in
      if (x0 <? 128)%N then (x0, 1)
      else if in_range 194 223 b0 then
        match r with
        | b1 :: _ =>
            if cont b1
            then (N.lor (N.shiftl (N.land x0 31) 6) (N.land (byte_val b1) 63), 2)
            else (RuneError, 1)
        | _ => (RuneError, 1)
        end
      else if in_range 224 239 b0 then
        match r with
        | b1 :: b2 :: _ =>
            let lo := if (x0 =? 224)%N then 160%N else 128%N in
            let hi := if (x0 =? 237)%N then 159%N else 191%N in
            if in_range lo hi b1 && cont b2
            then (N.lor (N.shiftl (N.land x0 15) 12)
                    (N.lor (N.shiftl (N.land (byte_val b1) 63) 6)
                       (N.land (byte_val b2) 63)), 3)
            else (RuneError, 1)
        | _ => (RuneError, 1)
        end
      else if in_range 240 244 b0 then
        match r with
        | b1 :: b2 :: b3 :: _ =>
            let lo := if (x0 =? 240)%N then 144%N else 128%N in
            let hi := if (x0 =? 244)%N then 143%N else 191%N in
            if in_range lo hi b1 && cont b2 && cont b3
            then (N.lor (N.shiftl (N.land x0 7) 18)
                    (N.lor (N.shiftl (N.land (byte_val b1) 63) 12)
                       (N.lor (N.shiftl (N.land (byte_val b2) 63) 6)
                          (N.land (byte_val b3) 63))), 4)
            else (RuneError, 1)
        | _ => (RuneError, 1)
        end
      else (RuneError, 1)
  end.

(** [utf8.AppendRune]: the encoding of a rune; surrogates and values
    past [MaxRune] are written as U+FFFD. *)
Definition EncodeRune (r : N) : list ascii :=
  let tail k := byte_of (N.lor 128 (N.land (N.shiftr r k) 63)) in
  if (r <=? 127)%N then [byte_of r]
  else if (r <=? 2047)%N then [byte_of (N.lor 192 (N.shiftr r 6)); tail 0%N]
  else if (MaxRune <? r)%N || ((55296 <=? r) && (r <=? 57343))%N
    then [byte_of 239; byte_of 191; byte_of 189]
  else if (r <=? 65535)%N
    then [byte_of (N.lor 224 (N.shiftr r 12)); tail 6%N; tail 0%N]
  else [byte_of (N.lor 240 (N.shiftr r 18)); tail 12%N; tail 6%N; tail 0%N].

(** The bytes a decoder that coerces to well-formed UTF-8 keeps for the
    rune at the head of [s]: the encoding itself when it is valid, U+FFFD
    for an invalid byte. *)
Definition head_bytes (s : list ascii) : list ascii :=
  EncodeRune (fst (DecodeRune s)).

(** The string coerced to valid UTF-8 as the encoder does it: every
    invalid byte becomes U+FFFD.  [skip] counts the continuation bytes
    of the rune being copied. *)
Fixpoint coerce_from (skip : nat) (s : list ascii) : list ascii :=
  match s with
  | [] => []
  | c :: r =>
      match skip with
      | S k => coerce_from k r
      | O => head_bytes s ++ coerce_from (snd (DecodeRune s) - 1) r
      end
  end.

Definition coerce (s : string) : string :=
  string_of_list_ascii (coerce_from 0 (list_ascii_of_string s)).

(** [utf8.ValidString] *)
Fixpoint valid_from (skip : nat) (s : list ascii) : bool :=
  match s with
  | [] => true
  | c :: r =>
      match skip with
      | S k => valid_from k r
      | O =>
          let '(rn, n) := DecodeRune s in
          negb ((rn =? RuneError)%N && (n =? 1)%nat) && valid_from (n - 1) r
      end
  end.

Definition ValidString (s : string) : bool :=
  valid_from 0 (list_ascii_of_string s).

End utf8.

(** ** The [encoding/json] package: text, as of Go 1.21 *)

Module json.

Definition dquote : ascii := byte_of 34.
Definition backslash : ascii := byte_of 92.
Definition newline : ascii := byte_of 10.

Definition is_byte (n : N) (c : ascii) : bool := (byte_val c =? n)%N.

Definition hex_digit (n : N) : ascii :=
  if (n <? 10)%N then byte_of (48 + n) else byte_of (87 + n).

(** The value of a hexadecimal digit, in either case. *)
Definition hex_val (c : ascii) : option N :=
  if in_range 48 57 c then Some (byte_val c - 48)%N
  else if in_range 97 102 c then Some (byte_val c - 87)%N
  else if in_range 65 70 c then Some (byte_val c - 55)%N
  else None.

(** [getu4] on the four digits that follow a backslash and [u]. *)
Definition hex4 (a b c d : ascii) : option N :=
  x3 ← hex_val a; x2 ← hex_val b; x1 ← hex_val c; x0 ← hex_val d;
  Some (4096 * x3 + 256 * x2 + 16 * x1 + x0)%N.

(** [htmlSafeSet]: the ASCII bytes the encoder copies as they are. *)
Definition htmlSafe (c : ascii) : bool :=
  in_range 32 127 c
  && negb (is_byte 34 c || is_byte 38 c || is_byte 60 c || is_byte 62 c
           || is_byte 92 c).

(** The escape the encoder writes for an ASCII byte outside
    [htmlSafeSet], as of Go 1.21 (later versions have a short escape
    for the bytes 8 and 12 as well; the decoder reads both forms). *)
Definition escape_ascii (c : ascii) : list ascii :=
  let x := byte_val c in
  if is_byte 92 c || is_byte 34 c then [backslash; c]
  else if is_byte 10 c then [backslash; "n"%char]
  else if is_byte 13 c then [backslash; "r"%char]
  else if is_byte 9 c then [backslash; "t"%char]
  else [backslash; "u"%char; "0"%char; "0"%char;
        hex_digit (N.shiftr x 4); hex_digit (N.land x 15)].

(** The body of [appendString] with [escapeHTML] set: the text between
    the quotes.  [skip] counts the continuation bytes of a rune already
    written. *)
Fixpoint quote_from (skip : nat) (s : list ascii) : list ascii :=
  match s with
  | [] => []
  | c :: r =>
      match skip with
      | S k => quote_from k r
      | O =>
          if (byte_val c <? 128)%N then
            (if htmlSafe c then [c] else escape_ascii c) ++ quote_from 0 r
          else
            let '(rn, size) := utf8.DecodeRune s in
            if (rn =? utf8.RuneError)%N && (size =? 1)%nat then
              [backslash; "u"%char; "f"%char; "f"%char; "f"%char; "d"%char]
                ++ quote_from 0 r
            else if (rn =? 8232)%N || (rn =? 8233)%N then
              [backslash; "u"%char; "2"%char; "0"%char; "2"%char;
               hex_digit (N.land rn 15)] ++ quote_from (size - 1) r
            else take size s ++ quote_from (size - 1) r
      end
  end.

Definition quote (s : string) : list ascii :=
  dquote :: quote_from 0 (list_ascii_of_string s) ++ [dquote].

Definition IsSurrogate (r : N) : bool := ((55296 <=? r) && (r <? 57344))%N.

(** [utf16.DecodeRune] *)
Definition utf16_DecodeRune (r1 r2 : N) : N :=
  if ((55296 <=? r1) && (r1 <? 56320) && (56320 <=? r2) && (r2 <? 57344))%N
  then (N.lor (N.shiftl (r1 - 55296) 10) (r2 - 56320) + 65536)%N
  else utf8.RuneError.

(** A string literal after its opening quote: the scanner's checks (no
    control character, only the escapes of the grammar) and [unquote]
    in one pass.  The result is the decoded string and the input after
    the closing quote. *)
Fixpoint unquote_from (skip : nat) (s : list ascii)
  : option (list ascii * list ascii) :=
  match s with
  | [] => None
  | c :: r =>
      match skip with
      | S k => unquote_from k r
      | O =>
          if is_byte 34 c then Some ([], r)
          else if is_byte 92 c then
            match r with
            | [] => None
            | e :: r1 =>
                let simple (b : N) :=
                  '(out, rest) ← unquote_from 0 r1; Some (byte_of b :: out, rest) in
                if is_byte 34 e || is_byte 92 e || is_byte 47 e
                then simple (byte_val e)
                else if is_byte 98 e then simple 8%N
                else if is_byte 102 e then simple 12%N
                else if is_byte 110 e then simple 10%N
                else if is_byte 114 e then simple 13%N
                else if is_byte 116 e then simple 9%N
                else if is_byte 117 e then
                  match r1 with
                  | h1 :: h2 :: h3 :: h4 :: r2 =>
                      match hex4 h1 h2 h3 h4 with
                      | None => None
                      | Some rr =>
                          let single (x : N) :=
                            '(out, rest) ← unquote_from 0 r2;
                            Some (utf8.EncodeRune x ++ out, rest) in
                          if IsSurrogate rr then
                            match r2 with
                            | b1 :: u1 :: g1 :: g2 :: g3 :: g4 :: r3 =>
                                match
                                  (if is_byte 92 b1 && is_byte 117 u1
                                   then hex4 g1 g2 g3 g4 else None)
                                with
                                | Some rr1 =>
                                    let dec := utf16_DecodeRune rr rr1 in
                                    if (dec =? utf8.RuneError)%N
                                    then single utf8.RuneError
                                    else
                                      '(out, rest) ← unquote_from 0 r3;
                                      Some (utf8.EncodeRune dec ++ out, rest)
                                | None => single utf8.RuneError
                                end
                            | _ => single utf8.RuneError
                            end
                          else single rr
                      end
                  | _ => None
                  end
                else None
            end
          else if (byte_val c <? 32)%N then None
          else
            '(out, rest) ← unquote_from (snd (utf8.DecodeRune s) - 1) r;
            Some (utf8.head_bytes s ++ out, rest)
      end
  end.

(** *** Documents *)

(** A JSON document as the scanner reads it.  A number keeps its
    literal; strings and keys are held decoded. *)
#[warnings="-register-all"] Inductive value :=
| Null
| Bool (b : bool)
| Number (lit : string)
| Str (s : string)
| Array (items : list value)
| Object (members : list (string * value)).

Definition chars (s : string) : list ascii := list_ascii_of_string s.

(** [newline] followed by the indentation of depth [d], two spaces a
    level: [MarshalIndent(v, "", "  ")]. *)
Definition nl (d : nat) : list ascii := newline :: repeat " "%char (2 * d).

Definition join_items (d : nat) (opening closing : ascii)
    (items : list (list ascii)) : list ascii :=
  match items with
  | [] => [opening; closing]
  | i :: rest =>
      opening :: nl (S d) ++ i
        ++ flat_map (fun y => ","%char :: nl (S d) ++ y) rest
        ++ nl d ++ [closing]
  end.

(** The indented text of a document at nesting depth [d]. *)
Fixpoint print (d : nat) (v : value) : list ascii :=
  match v with
  | Null => chars "null"
  | Bool true => chars "true"
  | Bool false => chars "false"
  | Number lit => chars lit
  | Str s => quote s
  | Array items => join_items d "["%char "]"%char (map (print (S d)) items)
  | Object members =>
      join_items d "{"%char "}"%char
        (map (fun kv => quote (fst kv) ++ chars ": " ++ print (S d) (snd kv))
           members)
  end.

Definition is_ws (c : ascii) : bool :=
  is_byte 32 c || is_byte 9 c || is_byte 13 c || is_byte 10 c.

Fixpoint skip_ws (s : list ascii) : list ascii :=
  match s with
  | c :: r => if is_ws c then skip_ws r else s
  | [] => []
  end.

Definition is_digit (c : ascii) : bool := in_range 48 57 c.

Fixpoint span_digits (s : list ascii) : list ascii * list ascii :=
  match s with
  | c :: r =>
      if is_digit c then let '(ds, rest) := span_digits r in (c :: ds, rest)
      else ([], s)
  | [] => ([], [])
  end.

(** One or more digits. *)
Definition digits1 (s : list ascii) : option (list ascii * list ascii) :=
  match span_digits s with
  | ([], _) => None
  | (ds, rest) => Some (ds, rest)
  end.

(** The number grammar of the scanner: sign, integer part without a
    leading zero, fraction, exponent. *)
Definition scan_number (s : list ascii) : option (list ascii * list ascii) :=
  let '(sign, s1) :=
    match s with
    | c :: r => if is_byte 45 c then ([c], r) else ([], s)
    | [] => ([], s)
    end in
  '(int, s2) ←
    match s1 with
    | c :: r =>
        if is_byte 48 c then Some ([c], r)
        else if in_range 49 57 c
             then let '(ds, rest) := span_digits r in Some (c :: ds, rest)
             else None
    | [] => None
    end;
  '(frac, s3) ←
    match s2 with
    | c :: r =>
        if is_byte 46 c
        then '(ds, rest) ← digits1 r; Some (c :: ds, rest)
        else Some ([], s2)
    | [] => Some ([], s2)
    end;
  '(exp, s4) ←
    match s3 with
    | c :: r =>
        if is_byte 101 c || is_byte 69 c then
          match r with
          | g :: r' =>
              if is_byte 43 g || is_byte 45 g
              then '(ds, rest) ← digits1 r'; Some (c :: g :: ds, rest)
              else '(ds, rest) ← digits1 r; Some (c :: ds, rest)
          | [] => None
          end
        else Some ([], s3)
    | [] => Some ([], s3)
    end;
  Some (sign ++ int ++ frac ++ exp, s4).

(** [s] without the prefix [p], when it starts with it. *)
Fixpoint strip_prefix (p s : list ascii) : option (list ascii) :=
  match p, s with
  | [], _ => Some s
  | a :: p', b :: s' => if Ascii.eqb a b then strip_prefix p' s' else None
  | _ :: _, [] => None
  end.

Definition text (l : list ascii) : string := string_of_list_ascii l.

Section loops.
Variable parse_item : list ascii -> option (value * list ascii).

(** The items of an array after the first bracket, at the start of an
    item. *)
Fixpoint parse_elems (fuel : nat) (s : list ascii)
  : option (list value * list ascii) :=
  match fuel with
  | O => None
  | S f =>
      '(v, r) ← parse_item s;
      match skip_ws r with
      | c :: r' =>
          if is_byte 44 c
          then '(vs, rest) ← parse_elems f r'; Some (v :: vs, rest)
          else if is_byte 93 c then Some ([v], r')
          else None
      | [] => None
      end
  end.

(** The members of an object, at the start of a key. *)
Fixpoint parse_members (fuel : nat) (s : list ascii)
  : option (list (string * value) * list ascii) :=
  match fuel with
  | O => None
  | S f =>
      match skip_ws s with
      | q :: r =>
          if is_byte 34 q then
            '(k, r1) ← unquote_from 0 r;
            match skip_ws r1 with
            | c :: r2 =>
                if is_byte 58 c then
                  '(v, r3) ← parse_item r2;
                  match skip_ws r3 with
                  | e :: r4 =>
                      if is_byte 44 e
                      then '(ms, rest) ← parse_members f r4;
                           Some ((text k, v) :: ms, rest)
                      else if is_byte 125 e then Some ([(text k, v)], r4)
                      else None
                  | [] => None
                  end
                else None
            | [] => None
            end
          else None
      | [] => None
      end
  end.
End loops.

(** [maxNestingDepth]: the scanner refuses arrays and objects nested
    deeper. *)
#[warnings="-abstract-large-number"] Definition maxNestingDepth : nat := 10000.

(** One value, after optional white space; [budget] is the number of
    array and object levels that may still be opened. *)
Fixpoint parse_value (budget : nat) (s : list ascii)
  : option (value * list ascii) :=
  match skip_ws s with
  | [] => None
  | c :: r =>
      if is_byte 34 c then
        '(str, rest) ← unquote_from 0 r; Some (Str (text str), rest)
      else if is_byte 123 c then
        match budget with
        | O => None
        | S b =>
            match skip_ws r with
            | e :: r' =>
                if is_byte 125 e then Some (Object [], r')
                else '(ms, rest) ← parse_members (parse_value b) (length r) r;
                     Some (Object ms, rest)
            | [] => None
            end
        end
      else if is_byte 91 c then
        match budget with
        | O => None
        | S b =>
            match skip_ws r with
            | e :: r' =>
                if is_byte 93 e then Some (Array [], r')
                else '(vs, rest) ← parse_elems (parse_value b) (length r) r;
                     Some (Array vs, rest)
            | [] => None
            end
        end
      else if is_byte 116 c then
        rest ← strip_prefix (chars "true") (c :: r); Some (Bool true, rest)
      else if is_byte 102 c then
        rest ← strip_prefix (chars "false") (c :: r); Some (Bool false, rest)
      else if is_byte 110 c then
        rest ← strip_prefix (chars "null") (c :: r); Some (Null, rest)
      else
        '(lit, rest) ← scan_number (c :: r); Some (Number (text lit), rest)
  end.

(** A whole text: one value and nothing but white space after it. *)
Definition parse (data : string) : option value :=
  '(v, rest) ← parse_value maxNestingDepth (chars data);
  match skip_ws rest with
  | [] => Some v
  | _ :: _ => None
  end.

Definition render (v : value) : string := text (print 0 v).

End json.

(** ** The store file: [json.Unmarshal] into a [ConfigFile] and
    [json.MarshalIndent] of one *)

Module codec.
Import json.

(** [foldName]: the key the decoder compares when no field has the
    exact name.  ASCII letters are put in upper case; the Kelvin sign
    U+212A and the long s U+017F fold to [K] and [S].  Every other rune
    folds to a rune outside ASCII, which no field name of this program
    holds, and is left as it is. *)
Fixpoint foldName (s : list ascii) : list ascii :=
  match s with
  | [] => []
  | c :: r =>
      if in_range 97 122 c then byte_of (byte_val c - 32) :: foldName r
      else if is_byte 197 c then
        match r with
        | c1 :: r1 => if is_byte 191 c1 then "S"%char :: foldName r1
                      else c :: foldName r
        | [] => [c]
        end
      else if is_byte 226 c then
        match r with
        | c1 :: c2 :: r2 =>
            if is_byte 132 c1 && is_byte 170 c2 then "K"%char :: foldName r2
            else c :: foldName r
        | _ => c :: foldName r
        end
      else c :: foldName r
  end.

(** Whether the key of a member selects the field with the tag
    [field]: the exact name, or the same folded name. *)
Definition selects (key field : string) : bool :=
  String.eqb key field
  || bool_decide (foldName (chars key) = foldName (chars field)).

(** A JSON value stored into a Go [string]: [null] leaves the field as
    it is, anything but a string is an [UnmarshalTypeError]. *)
Definition into_string (v : value) (old : string) : option string :=
  match v with
  | Str s => Some s
  | Null => Some old
  | _ => None
  end.

Definition into_bool (v : value) (old : bool) : option bool :=
  match v with
  | Bool b => Some b
  | Null => Some old
  | _ => None
  end.

(** One member of an object stored into a [Configuration]; a key that
    selects no field is skipped. *)
Definition into_field (c : Configuration) (kv : string * value)
  : option Configuration :=
  let '(k, v) := kv in
  if selects k "name" then n ← into_string v (Name c);
    Some (mkConfiguration n (BaseURL c) (APIKey c) (Active c))
  else if selects k "base_url" then u ← into_string v (BaseURL c);
    Some (set_BaseURL u c)
  else if selects k "api_key" then a ← into_string v (APIKey c);
    Some (set_APIKey a c)
  else if selects k "active" then b ← into_bool v (Active c);
    Some (set_Active b c)
  else Some c.

(** The members of an object are stored in the order of the text, so
    the last of two that select the same field wins. *)
Definition into_Configuration (v : value) (old : Configuration)
  : option Configuration :=
  match v with
  | Object members =>
      foldl (fun acc kv => c ← acc; into_field c kv) (Some old) members
  | Null => Some old
  | _ => None
  end.

Definition zero : Configuration := mkConfiguration "" "" "" false.

(** The items of an array stored into a slice whose backing array
    holds [mem]: item [i] is stored into the element that is already at
    index [i] (a fresh, zero one past the end of the backing array). *)
Fixpoint into_elems (items : list value) (mem : list Configuration)
  : option (list Configuration) :=
  match items with
  | [] => Some []
  | v :: vs =>
      c ← into_Configuration v (hd zero mem);
      cs ← into_elems vs (tl mem);
      Some (c :: cs)
  end.

(** The field being filled: the slice and its backing array, of which
    the slice is a prefix. *)
Record slot := mkSlot {
  cur : slice Configuration;
  mem : list Configuration
}.

(** A JSON value stored into the [[]Configuration] field.  [null] makes
    the slice nil; an empty array makes a fresh empty slice; another
    array reuses the backing array and truncates the slice to the
    number of items. *)
Definition into_slice (v : value) (old : slot) : option slot :=
  match v with
  | Null => Some (mkSlot None [])
  | Array [] => Some (mkSlot (Some []) [])
  | Array items =>
      cs ← into_elems items (mem old);
      Some (mkSlot (Some cs) (cs ++ drop (length cs) (mem old)))
  | _ => None
  end.

Definition into_ConfigFile (v : value) : option ConfigFile :=
  match v with
  | Object members =>
      st ← foldl (fun acc kv =>
                    st ← acc;
                    if selects (fst kv) "configurations"
                    then into_slice (snd kv) st else Some st)
             (Some (mkSlot None [])) members;
      Some (mkConfigFile (cur st))
  | Null => Some (mkConfigFile None)
  | _ => None
  end.

(** [json.Unmarshal(data, &configFile)] on a zero [ConfigFile]; [None]
    is any error, of syntax or of type. *)
Definition Unmarshal (data : string) : option ConfigFile :=
  v ← parse data; into_ConfigFile v.

Definition of_Configuration (c : Configuration) : value :=
  Object [("name", Str (Name c)); ("base_url", Str (BaseURL c));
          ("api_key", Str (APIKey c)); ("active", Bool (Active c))].

Definition of_ConfigFile (config : ConfigFile) : value :=
  Object [("configurations",
           match Configurations config with
           | None => Null
           | Some l => Array (map of_Configuration l)
           end)].

(** [json.MarshalIndent(config, "", "  ")]; it cannot fail on this
    type. *)
Definition MarshalIndent (config : ConfigFile) : string :=
  render (of_ConfigFile config).

End codec.

(** ** The [net/url] package: [url.Parse] followed by [Hostname], as of
    Go 1.21, the version the README asks for *)

Module url.

Definition is_byte (n : N) (c : ascii) : bool := (byte_val c =? n)%N.

Definition is_alpha (c : ascii) : bool := in_range 97 122 c || in_range 65 90 c.
Definition is_digit (c : ascii) : bool := in_range 48 57 c.
Definition ishex (c : ascii) : bool :=
  is_digit c || in_range 97 102 c || in_range 65 70 c.
Definition unhex (c : ascii) : N :=
  if is_digit c then byte_val c - 48
  else if in_range 97 102 c then byte_val c - 87
  else if in_range 65 70 c then byte_val c - 55
  else 0.

Definition one_of (set : string) (c : ascii) : bool :=
  existsb (Ascii.eqb c) (list_ascii_of_string set).

(** The position of the first byte of [s] that satisfies [p]. *)
Fixpoint index_where (p : ascii -> bool) (s : list ascii) : option nat :=
  match s with
  | [] => None
  | c :: r => if p c then Some 0 else S <$> index_where p r
  end.

(** The position of the last one. *)
Fixpoint last_index_where (p : ascii -> bool) (s : list ascii) : option nat :=
  match s with
  | [] => None
  | c :: r =>
      match last_index_where p r with
      | Some i => Some (S i)
      | None => if p c then Some 0 else None
      end
  end.

(** [strings.Cut(s, sep)] for a separator of one byte. *)
Definition cut (sep : N) (s : list ascii) : list ascii * list ascii :=
  match index_where (is_byte sep) s with
  | Some i => (take i s, drop (S i) s)
  | None => (s, [])
  end.

Fixpoint has_prefix (p s : list ascii) : bool :=
  match p, s with
  | [], _ => true
  | a :: p', b :: s' => Ascii.eqb a b && has_prefix p' s'
  | _ :: _, [] => false
  end.

(** The position of the first occurrence of [p] in [s]. *)
Fixpoint index_of (p s : list ascii) : option nat :=
  if has_prefix p s then Some 0
  else match s with
       | [] => None
       | _ :: r => S <$> index_of p r
       end.

Definition chars (s : string) : list ascii := list_ascii_of_string s.

Definition stringContainsCTLByte (s : list ascii) : bool :=
  existsb (fun c => (byte_val c <? 32)%N || is_byte 127 c) s.

(** [getScheme]: the scheme and what follows its colon; [None] is the
    error of a URL that starts with a colon. *)
Fixpoint getScheme_from (i : nat) (whole s : list ascii)
  : option (list ascii * list ascii) :=
  match s with
  | [] => Some ([], whole)
  | c :: r =>
      if is_alpha c then getScheme_from (S i) whole r
      else if is_digit c || one_of "+-." c then
        match i with
        | O => Some ([], whole)
        | S _ => getScheme_from (S i) whole r
        end
      else if is_byte 58 c then
        match i with
        | O => None
        | S _ => Some (take i whole, r)
        end
      else Some ([], whole)
  end.

Definition getScheme (rawURL : list ascii) := getScheme_from 0 rawURL rawURL.

Inductive encoding := encodePath | encodeHost | encodeZone
                    | encodeUserPassword | encodeFragment.

(** [shouldEscape(c, encodeHost)]: the ASCII bytes a host may not
    hold. *)
Definition shouldEscapeHost (c : ascii) : bool :=
  negb (is_alpha c || is_digit c
        || one_of "!$&'()*+,;=:[]<>" c || is_byte 34 c
        || one_of "-_.~" c).

(** [unescape(s, mode)]: the percent-escapes of [s] decoded, [None] on
    an escape or a byte the mode does not allow. *)
Fixpoint unescape (mode : encoding) (s : list ascii) : option (list ascii) :=
  match s with
  | [] => Some []
  | c :: r =>
      if is_byte 37 c then
        match r with
        | h1 :: h2 :: r2 =>
            let v := (N.lor (N.shiftl (unhex h1) 4) (unhex h2)) in
            let is25 := is_byte 50 h1 && is_byte 53 h2 in
            if negb (ishex h1 && ishex h2) then None
            else if match mode with
                    | encodeHost => (unhex h1 <? 8)%N && negb is25
                    | encodeZone =>
                        negb is25 && negb (v =? 32)%N
                        && shouldEscapeHost (byte_of v)
                    | _ => false
                    end
            then None
            else out ← unescape mode r2; Some (byte_of v :: out)
        | _ => None
        end
      else if match mode with
              | encodeHost | encodeZone =>
                  (byte_val c <? 128)%N && shouldEscapeHost c
              | _ => false
              end
      then None
      else out ← unescape mode r; Some (c :: out)
  end.

Definition validOptionalPort (port : list ascii) : bool :=
  match port with
  | [] => true
  | c :: ds => is_byte 58 c && forallb is_digit ds
  end.

Definition parseHost (host : list ascii) : option (list ascii) :=
  if has_prefix (chars "[") host then
    match last_index_where (is_byte 93) host with
    | None => None
    | Some i =>
        if negb (validOptionalPort (drop (S i) host)) then None
        else
          match index_of (chars "%25") (take i host) with
          | Some zone =>
              host1 ← unescape encodeHost (take zone host);
              host2 ← unescape encodeZone (drop zone (take i host));
              host3 ← unescape encodeHost (drop i host);
              Some (host1 ++ host2 ++ host3)
          | None => unescape encodeHost host
          end
    end
  else
    match last_index_where (is_byte 58) host with
    | Some i =>
        if negb (validOptionalPort (drop i host)) then None
        else unescape encodeHost host
    | None => unescape encodeHost host
    end.

Definition validUserinfo (s : list ascii) : bool :=
  forallb (fun c => is_alpha c || is_digit c
                    || one_of "-._:~!$&'()*+,;=%@" c) s.

(** [parseAuthority], of which only the host is kept. *)
Definition parseAuthority (authority : list ascii) : option (list ascii) :=
  match last_index_where (is_byte 64) authority with
  | None => parseHost authority
  | Some i =>
      host ← parseHost (drop (S i) authority);
      let userinfo := take i authority in
      if negb (validUserinfo userinfo) then None
      else
        let '(username, password) := cut 58 userinfo in
        _ ← unescape encodeUserPassword username;
        _ ← unescape encodeUserPassword password;
        Some host
  end.

(** [parse(rawURL, false)]: the [Host] field of the result. *)
Definition parse_host (rawURL : list ascii) : option (list ascii) :=
  if stringContainsCTLByte rawURL then None
  else if bool_decide (rawURL = chars "*") then Some []
  else
    '(scheme, rest) ← getScheme rawURL;
    let rest :=
      if bool_decide (last rest = Some "?"%char)
         && bool_decide (length (filter (fun c => is_byte 63 c = true) rest) = 1)
      then take (length rest - 1) rest
      else fst (cut 63 rest) in
    if negb (has_prefix (chars "/") rest) && negb (bool_decide (scheme = []))
    then Some []
    else if negb (has_prefix (chars "/") rest)
            && existsb (is_byte 58) (fst (cut 47 rest))
    then None
    else if (negb (bool_decide (scheme = []))
             || negb (has_prefix (chars "///") rest))
            && has_prefix (chars "//") rest
    then
      let '(authority, rest) :=
        let a := drop 2 rest in
        match index_where (is_byte 47) a with
        | Some i => (take i a, drop i a)
        | None => (a, [])
        end in
      host ← parseAuthority authority;
      _ ← unescape encodePath rest;
      Some host
    else
      _ ← unescape encodePath rest;
      Some [].

(** [url.Parse(rawURL)]: the [Host] of the URL, [None] on an error. *)
Definition Parse (rawURL : string) : option (list ascii) :=
  let '(u, frag) := cut 35 (chars rawURL) in
  host ← parse_host u;
  match frag with
  | [] => Some host
  | _ => _ ← unescape encodeFragment frag; Some host
  end.

(** [splitHostPort] and [Hostname]: the host without a valid port and
    without the square brackets of an IP literal. *)
Definition Hostname (hostPort : list ascii) : string :=
  let host :=
    match last_index_where (is_byte 58) hostPort with
    | Some colon =>
        if validOptionalPort (drop colon hostPort)
        then take colon hostPort else hostPort
    | None => hostPort
    end in
  string_of_list_ascii
    (if has_prefix (chars "[") host && bool_decide (last host = Some "]"%char)
     then take (length host - 2) (drop 1 host)
     else host).

End url.

(** ** Domain-name extraction *)

Definition extractDomainFromURL (baseURL : string) : string :=
  if String.eqb baseURL "" then "default"
  else
    match url.Parse baseURL with
    | None => "default"
    | Some host =>
        let hostname := url.Hostname host in
        if String.eqb hostname "" then "default"
        else
          let hostname := strings.TrimPrefix hostname "www." in
          let parts := strings.SplitByte hostname "."%char in
          if 2 <=? length parts then
            if 3 <=? length parts then nth 1 parts "" else nth 0 parts ""
          else nth 0 parts ""
    end.

(** ** The world outside the program *)

(** Permission bits, written in octal in [main.go]. *)
Definition perm_0644 : N := 420.
Definition perm_0755 : N := 493.
Definition perm_0600 : N := 384.

(** A regular file: its bytes and its permission bits. *)
Record File := mkFile {
  data : string;
  mode : N
}.

Inductive syscall := SysStat | SysRead | SysWrite | SysMkdir.

(** What the program writes on standard error; the text of the library
    errors it quotes there is not modelled. *)
Inductive warning :=
| SettingsUnparsable
| SetxFailed (var err output : string)
| UnsupportedPlatform (goos : string).

(** The state the program runs in.  [refused] says which system calls
    fail on which path, [leftover] what a failed write leaves behind,
    [setx_failure] whether the [setx] command fails (with the error and
    the output it prints); [registry] holds what [setx] stored. *)
Record World := mkWorld {
  GOOS : string;
  executable : option string;
  environ : gmap string string;
  files : gmap string File;
  dirs : gset string;
  umask : N;
  refused : syscall -> string -> bool;
  leftover : string -> string -> option File -> option File;
  setx_failure : string -> string -> option (string * string);
  registry : gmap string string;
  stdout : list string;
  stderr : list warning
}.

Definition with_files (f : gmap string File -> gmap string File) (w : World) :=
  mkWorld (GOOS w) (executable w) (environ w) (f (files w)) (dirs w) (umask w)
    (refused w) (leftover w) (setx_failure w) (registry w) (stdout w) (stderr w).
Definition with_dirs (f : gset string -> gset string) (w : World) :=
  mkWorld (GOOS w) (executable w) (environ w) (files w) (f (dirs w)) (umask w)
    (refused w) (leftover w) (setx_failure w) (registry w) (stdout w) (stderr w).
Definition with_stdout (f : list string -> list string) (w : World) :=
  mkWorld (GOOS w) (executable w) (environ w) (files w) (dirs w) (umask w)
    (refused w) (leftover w) (setx_failure w) (registry w) (f (stdout w)) (stderr w).
Definition with_stderr (f : list warning -> list warning) (w : World) :=
  mkWorld (GOOS w) (executable w) (environ w) (files w) (dirs w) (umask w)
    (refused w) (leftover w) (setx_failure w) (registry w) (stdout w) (f (stderr w)).

(** The errors the operations return. *)
Inductive error :=
| ExecutablePathError
| ReadConfigError
| ParseConfigError
| WriteConfigError
| DuplicateName (name : string)
| NotFound (name : string)
| ActiveProfileDeletion (name : string)
| SetenvError (var : string)
| HomeDirError
| MkdirError
| ReadSettingsError
| WriteSettingsError.

Inductive result (A : Type) :=
| Ok (a : A)
| Err (e : error).
Arguments Ok {A} a.
Arguments Err {A} e.

(** A Go function with effects: the world goes in, the returned value or
    error comes out with the world it leaves. *)
Definition IO (A : Type) : Type := World -> result A * World.

#[global] Instance IO_ret : MRet IO := fun A a w => (Ok a, w).
#[global] Instance IO_bind : MBind IO := fun A B f m w =>
  match m w with
  | (Ok a, w') => f a w'
  | (Err e, w') => (Err e, w')
  end.

Definition fail {A} (e : error) : IO A := fun w => (Err e, w).
Definition get {A} (f : World -> A) : IO A := fun w => (Ok (f w), w).
Definition modify (f : World -> World) : IO unit := fun w => (Ok tt, f w).
Definition lift {A} (r : result A) : IO A := fun w => (r, w).

(** [if err := m; err != nil { ... }]: the error is looked at, not
    returned. *)
Definition try {A} (m : IO A) : IO (result A) := fun w =>
  let '(r, w') := m w in (Ok r, w').

Definition LF : string := String json.newline "".

(** [fmt.Printf] and [fmt.Println] on standard output. *)
Definition Printf (s : string) : IO unit := modify (with_stdout (fun o => o ++ [s])).
Definition Warn (x : warning) : IO unit := modify (with_stderr (fun o => o ++ [x])).

(** *** [path/filepath]; volume names are not modelled *)

Module filepath.

Definition is_sep (goos : string) (c : ascii) : bool :=
  Ascii.eqb c "/"%char || (String.eqb goos "windows" && Ascii.eqb c "\"%char).

Definition Separator (goos : string) : string :=
  if String.eqb goos "windows" then "\" else "/".

(** The elements of a path: the runs between separators. *)
Fixpoint elements (goos : string) (s : list ascii) : list (list ascii) :=
  match s with
  | [] => [[]]
  | c :: r =>
      if is_sep goos c then [] :: elements goos r
      else match elements goos r with
           | e :: es => (c :: e) :: es
           | [] => [[c]]
           end
  end.

(** The elements [Clean] keeps, last first. *)
Fixpoint clean_stack (rooted : bool) (es : list (list ascii))
    (stack : list (list ascii)) : list (list ascii) :=
  match es with
  | [] => stack
  | e :: r =>
      if bool_decide (e = []) || bool_decide (e = ["."%char])
      then clean_stack rooted r stack
      else if bool_decide (e = ["."%char; "."%char]) then
        match stack with
        | top :: below =>
            if bool_decide (top = ["."%char; "."%char])
            then clean_stack rooted r (e :: stack)
            else clean_stack rooted r below
        | [] => if rooted then clean_stack rooted r []
                else clean_stack rooted r [e]
        end
      else clean_stack rooted r (e :: stack)
  end.

Definition join_with (sep : string) (es : list (list ascii)) : string :=
  match es with
  | [] => ""
  | e :: r =>
      foldl (fun acc x => acc +:+ sep +:+ string_of_list_ascii x)
        (string_of_list_ascii e) r
  end.

Definition Clean (goos : string) (path : string) : string :=
  let s := list_ascii_of_string path in
  let rooted := match s with c :: _ => is_sep goos c | [] => false end in
  let kept := rev (clean_stack rooted (elements goos s) []) in
  if rooted then Separator goos +:+ join_with (Separator goos) kept
  else match kept with
       | [] => "."
       | _ => join_with (Separator goos) kept
       end.

(** [filepath.Dir]: the path up to its last separator, cleaned. *)
Definition Dir (goos : string) (path : string) : string :=
  let s := list_ascii_of_string path in
  match url.last_index_where (is_sep goos) s with
  | Some i => Clean goos (string_of_list_ascii (take (S i) s))
  | None => "."
  end.

(** [filepath.Join]: the elements from the first one that is not
    empty, joined and cleaned. *)
Fixpoint Join (goos : string) (elem : list string) : string :=
  match elem with
  | [] => ""
  | e :: r =>
      if String.eqb e "" then Join goos r
      else Clean goos
             (foldl (fun acc x => acc +:+ Separator goos +:+ x) e r)
  end.

End filepath.

(** *** The [os] package *)

Module os.

Definition Getenv (key : string) : IO string :=
  get (fun w => default "" (environ w !! key)).


(** [os.Executable] *)
Definition Executable : IO (option string) := get executable.

(** [os.UserHomeDir], [None] when the variable it reads is empty. *)
Definition UserHomeDir : IO (option string) := fun w =>
  let goos := GOOS w in
  let env := if String.eqb goos "windows" then "USERPROFILE"
             else if String.eqb goos "plan9" then "home" else "HOME" in
  let v := default "" (environ w !! env) in
  if negb (String.eqb v "") then (Ok (Some v), w)
  else if String.eqb goos "android" then (Ok (Some "/sdcard"), w)
  else if String.eqb goos "ios" then (Ok (Some "/"), w)
  else (Ok None, w).

(** Whether [os.IsNotExist] holds of the error of [os.Stat]. *)
Definition Stat_IsNotExist (path : string) : IO bool :=
  get (fun w =>
         negb (refused w SysStat path)
         && bool_decide (files w !! path = None)
         && bool_decide (path ∉ dirs w)).

Inductive read :=
| ReadOk (bytes : string)
| ReadNotExist
| ReadFailed.

(** [os.ReadFile] *)
Definition ReadFile (path : string) : IO read :=
  get (fun w =>
         if refused w SysRead path then ReadFailed
         else match files w !! path with
              | Some f => ReadOk (data f)
              | None => if bool_decide (path ∈ dirs w) then ReadFailed
                        else ReadNotExist
              end).

(** [os.WriteFile(path, bytes, perm)]: whether it succeeded.  A file
    that exists keeps its mode; a new one gets [perm] less the bits
    of the umask. *)
Definition WriteFile (path bytes : string) (perm : N) : IO bool := fun w =>
  if bool_decide (path ∈ dirs w) then (Ok false, w)
  else if refused w SysWrite path
  then (Ok false, with_files (partial_alter (leftover w path bytes) path) w)
  else
    let m := match files w !! path with
             | Some f => mode f
             | None => N.ldiff perm (umask w)
             end in
    (Ok true, with_files <[path := mkFile bytes m]> w).

(** [os.MkdirAll(path, perm)]: whether it succeeded. *)
Definition MkdirAll (path : string) (perm : N) : IO bool := fun w =>
  if refused w SysMkdir path || bool_decide (is_Some (files w !! path))
  then (Ok false, w)
  else (Ok true, with_dirs (fun d => {[path]} ∪ d) w).


End os.

(** ** The platform settings file *)

Section Program.

(** [strconv]'s conversion between decimal text and [float64] is not
    modelled: the type and the two conversions are parameters. *)
Context {float64 : Type}.
Context (ParseFloat : string -> option float64).
Context (FormatFloat : float64 -> string).

(** A value of type [interface{}] as [json] makes and prints them. *)
#[warnings="-register-all"] Inductive any :=
| ANil
| ABool (b : bool)
| AFloat (f : float64)
| AInt (z : Z)
| AStr (s : string)
| AArr (l : list any)
| AMap (m : gmap string any).

(** [ClaudeSettings]: the [Env] map, nil or not. *)
Record ClaudeSettings := mkClaudeSettings {
  Env : option (gmap string any)
}.

Definition NewClaudeSettings : ClaudeSettings :=
  mkClaudeSettings
    (Some (<["ANTHROPIC_AUTH_TOKEN" := AStr ""]>
          (<["ANTHROPIC_BASE_URL" := AStr ""]>
          (<["API_TIMEOUT_MS" := AStr "3000000"]>
          (<["CLAUDE_CODE_DISABLE_NONESSENTIAL_TRAFFIC" := AInt 1]> ∅))))).

(** A JSON value stored into an [interface{}]: always a fresh value;
    a number out of the range of [float64] is an error.  Of two
    members with the same key the last one stays. *)
Fixpoint any_of (v : json.value) : option any :=
  match v with
  | json.Null => Some ANil
  | json.Bool b => Some (ABool b)
  | json.Number lit => AFloat <$> ParseFloat lit
  | json.Str s => Some (AStr s)
  | json.Array items => AArr <$> mapM any_of items
  | json.Object members =>
      AMap <$> foldl (fun acc kv =>
                        m ← acc; a ← any_of (snd kv); Some (<[fst kv := a]> m))
                 (Some ∅) members
  end.

(** A JSON value stored into the [Env] field: [null] makes the map
    nil, an object adds its members to the map that is there. *)
Definition into_Env (v : json.value) (old : option (gmap string any))
  : option (option (gmap string any)) :=
  match v with
  | json.Null => Some None
  | json.Object members =>
      Some <$> foldl (fun acc kv =>
                        m ← acc; a ← any_of (snd kv); Some (<[fst kv := a]> m))
                 (Some (default ∅ old)) members
  | _ => None
  end.

Definition into_ClaudeSettings (v : json.value) : option ClaudeSettings :=
  match v with
  | json.Object members =>
      mkClaudeSettings <$>
        foldl (fun acc kv =>
                 e ← acc;
                 if codec.selects (fst kv) "env" then into_Env (snd kv) e
                 else Some e)
          (Some None) members
  | json.Null => Some (mkClaudeSettings None)
  | _ => None
  end.

(** [json.Unmarshal(data, &settings)] on a zero [ClaudeSettings]. *)
Definition UnmarshalSettings (bytes : string) : option ClaudeSettings :=
  v ← json.parse bytes; into_ClaudeSettings v.

Definition key_le (x y : string * json.value) : Prop :=
  String.leb (fst x) (fst y) = true.

#[local] Instance key_le_dec x y : Decision (key_le x y) := bool_eq_dec _ _.

(** The members of a map are written sorted by key. *)
Fixpoint of_any (a : any) : json.value :=
  match a with
  | ANil => json.Null
  | ABool b => json.Bool b
  | AFloat f => json.Number (FormatFloat f)
  | AInt z => json.Number (pretty z)
  | AStr s => json.Str s
  | AArr l => json.Array (map of_any l)
  | AMap m => json.Object (merge_sort key_le (map_to_list (of_any <$> m)))
  end.

Definition of_ClaudeSettings (settings : ClaudeSettings) : json.value :=
  json.Object [("env", match Env settings with
                       | None => json.Null
                       | Some m => of_any (AMap m)
                       end)].

(** [json.MarshalIndent(settings, "", "  ")]; the values [Unmarshal]
    makes and the two defaults can all be written, so it cannot fail. *)
Definition MarshalIndentSettings (settings : ClaudeSettings) : string :=
  json.render (of_ClaudeSettings settings).

(** ** Persistence *)

Definition configFileName : string := "ccc-config.json".

Definition getConfigPath : IO string :=
  execPath ← os.Executable;
  match execPath with
  | None => fail ExecutablePathError
  | Some execPath =>
      goos ← get GOOS;
      let execDir := filepath.Dir goos execPath in
      mret (filepath.Join goos [execDir; configFileName])
  end.

Definition saveConfig (config : ConfigFile) : IO unit :=
  configPath ← getConfigPath;
  let bytes := codec.MarshalIndent config in
  written ← os.WriteFile configPath bytes perm_0644;
  if written : bool then mret tt else fail WriteConfigError.

(** ** Auto-import *)

Definition importFromWindows : IO (option Configuration) :=
  baseURL ← os.Getenv "ANTHROPIC_BASE_URL";
  apiKey ← os.Getenv "ANTHROPIC_AUTH_TOKEN";
  if String.eqb baseURL "" || String.eqb apiKey "" then mret None
  else
    let name := extractDomainFromURL baseURL in
    mret (Some (mkConfiguration name baseURL apiKey true)).

(** [x.(string)]: the string and whether [x] is one. *)
Definition as_string (x : option any) : string * bool :=
  match x with
  | Some (AStr s) => (s, true)
  | _ => ("", false)
  end.

Definition importFromUnixSettings : IO (option Configuration) :=
  homeDir ← os.UserHomeDir;
  match homeDir with
  | None => mret None
  | Some homeDir =>
      goos ← get GOOS;
      let settingsPath := filepath.Join goos [homeDir; ".claude"; "settings.json"] in
      r ← os.ReadFile settingsPath;
      match r with
      | os.ReadOk bytes =>
          match UnmarshalSettings bytes with
          | None => mret None
          | Some settings =>
              match Env settings with
              | None => mret None
              | Some env =>
                  let '(baseURL, baseURLExists) := as_string (env !! "ANTHROPIC_BASE_URL") in
                  let '(apiKey, apiKeyExists) := as_string (env !! "ANTHROPIC_AUTH_TOKEN") in
                  if negb baseURLExists || negb apiKeyExists
                     || String.eqb baseURL "" || String.eqb apiKey ""
                  then mret None
                  else
                    let name := extractDomainFromURL baseURL in
                    mret (Some (mkConfiguration name baseURL apiKey true))
              end
          end
      | _ => mret None
      end
  end.

Definition loadConfig : IO ConfigFile :=
  configPath ← getConfigPath;
  absent ← os.Stat_IsNotExist configPath;
  if absent : bool then
    goos ← get GOOS;
    importedConfig ←
      (if String.eqb goos "windows" then importFromWindows
       else if String.eqb goos "linux" || String.eqb goos "darwin"
            then importFromUnixSettings
            else mret None);
    match importedConfig with
    | Some imported =>
        let config := mkConfigFile (Some [imported]) in
        saved ← try (saveConfig config);
        _ ← match saved with
            | Ok _ =>
                Printf ("Auto-imported configuration '" +:+ Name imported
                        +:+ "' from existing settings" +:+ LF)
            | Err _ => mret tt
            end;
        mret config
    | None => mret (mkConfigFile (Some []))
    end
  else
    r ← os.ReadFile configPath;
    match r with
    | os.ReadOk bytes =>
        match codec.Unmarshal bytes with
        | Some configFile => mret configFile
        | None => fail ParseConfigError
        end
    | _ => fail ReadConfigError
    end.

(** ** Activation engine *)


(** The [Env] map [setUnixSettingsFile] writes, from the one it read. *)
Definition activated_env (activeConfig : Configuration)
    (env : gmap string any) : gmap string any :=
  let env := <["ANTHROPIC_AUTH_TOKEN" := AStr (APIKey activeConfig)]> env in
  let env := <["ANTHROPIC_BASE_URL" := AStr (BaseURL activeConfig)]> env in
  let env := match env !! "API_TIMEOUT_MS" with
             | Some _ => env
             | None => <["API_TIMEOUT_MS" := AStr "3000000"]> env
             end in
  match env !! "CLAUDE_CODE_DISABLE_NONESSENTIAL_TRAFFIC" with
  | Some _ => env
  | None => <["CLAUDE_CODE_DISABLE_NONESSENTIAL_TRAFFIC" := AInt 1]> env
  end.

Definition setUnixSettingsFile (activeConfig : Configuration) : IO unit :=
  homeDir ← os.UserHomeDir;
  match homeDir with
  | None => fail HomeDirError
  | Some homeDir =>
      goos ← get GOOS;
      let claudeDir := filepath.Join goos [homeDir; ".claude"] in
      made ← os.MkdirAll claudeDir perm_0755;
      if negb made then fail MkdirError else
      let settingsPath := filepath.Join goos [claudeDir; "settings.json"] in
      r ← os.ReadFile settingsPath;
      settings ←
        match r with
        | os.ReadOk bytes =>
            match UnmarshalSettings bytes with
            | Some settings => mret settings
            | None => _ ← Warn SettingsUnparsable; mret NewClaudeSettings
            end
        | os.ReadFailed => fail ReadSettingsError
        | os.ReadNotExist => mret NewClaudeSettings
        end;
      let env := activated_env activeConfig (default ∅ (Env settings)) in
      let bytes := MarshalIndentSettings (mkClaudeSettings (Some env)) in
      written ← os.WriteFile settingsPath bytes perm_0644;
      if negb written then fail WriteSettingsError else
      _ ← Printf ("Claude settings updated for active configuration '"
                  +:+ Name activeConfig +:+ "':" +:+ LF);
      _ ← Printf ("Settings file: " +:+ settingsPath +:+ LF);
      _ ← Printf ("Base URL: " +:+ BaseURL activeConfig +:+ LF);
      Printf ("API Key: " +:+ maskAPIKey (APIKey activeConfig) +:+ LF)
  end.

(** ** The operations on a loaded Collection: what each one makes of
    the [ConfigFile] between [loadConfig] and [saveConfig] *)

Definition added (config : ConfigFile) (name baseURL apiKey : string)
  : result ConfigFile :=
  match findConfiguration config name with
  | Some _ => Err (DuplicateName name)
  | None =>
      let newConf := mkConfiguration name baseURL apiKey false in
      let newConf :=
        if length (profiles config) =? 0 then set_Active true newConf
        else newConf in
      Ok (mkConfigFile (append (Configurations config) newConf))
  end.



Definition activated (config : ConfigFile) (name : string) : result ConfigFile :=
  match findConfiguration config name with
  | None => Err (NotFound name)
  | Some _ => Ok (setActiveConfiguration config name)
  end.

(** ** The commands *)





End Program.

(** ** The invariants of a Collection *)

Definition names (config : ConfigFile) : list string := map Name (profiles config).

Definition unique_names (config : ConfigFile) : Prop := List.NoDup (names config).

Definition active_count (config : ConfigFile) : nat :=
  length (List.filter Active (profiles config)).


Definition has_profile (config : ConfigFile) (name : string) : Prop :=
  exists c, In c (profiles config) /\ Name c = name.

(** ** What a round trip through the store file keeps *)

(** A profile with its strings coerced to valid UTF-8. *)
Definition coerce_Configuration (c : Configuration) : Configuration :=
  mkConfiguration (utf8.coerce (Name c)) (utf8.coerce (BaseURL c))
    (utf8.coerce (APIKey c)) (Active c).

Definition coerce_ConfigFile (config : ConfigFile) : ConfigFile :=
  mkConfigFile (map coerce_Configuration <$> Configurations config).

Definition valid_Configuration (c : Configuration) : bool :=
  utf8.ValidString (Name c) && utf8.ValidString (BaseURL c)
  && utf8.ValidString (APIKey c).

Definition valid_ConfigFile (config : ConfigFile) : bool :=
  forallb valid_Configuration (profiles config).

(** A document with its strings and keys coerced to valid UTF-8. *)
Fixpoint coerce_value (v : json.value) : json.value :=
  match v with
  | json.Str s => json.Str (utf8.coerce s)
  | json.Array items => json.Array (map coerce_value items)
  | json.Object members =>
      json.Object (map (fun kv => (utf8.coerce (fst kv), coerce_value (snd kv)))
                     members)
  | _ => v
  end.

(** A document without numbers whose arrays and objects nest at most
    [budget] deep. *)
Fixpoint fits (v : json.value) (budget : nat) : bool :=
  match v with
  | json.Number _ => false
  | json.Array items =>
      match budget with
      | O => false
      | S b => forallb (fun x => fits x b) items
      end
  | json.Object members =>
      match budget with
      | O => false
      | S b => forallb (fun kv => fits (snd kv) b) members
      end
  | _ => true
  end.

(** ** Where the files are, and how commands fail *)

(** The path of the store file, when the executable is known. *)
Definition store_path (w : World) : option string :=
  (fun execPath =>
     filepath.Join (GOOS w) [filepath.Dir (GOOS w) execPath; configFileName])
    <$> executable w.


(** The path of the platform settings file, when the home directory is
    known. *)
Definition settings_path (w : World) : option string :=
  match fst (os.UserHomeDir w) with
  | Ok (Some homeDir) =>
      Some (filepath.Join (GOOS w)
              [filepath.Join (GOOS w) [homeDir; ".claude"]; "settings.json"])
  | _ => None
  end.



(** The first byte of a printed document opens a value. *)
Definition opens_value (c : ascii) : bool :=
  negb (json.is_ws c) && negb (json.is_byte 93 c) && negb (json.is_byte 125 c)
  && negb (json.is_byte 44 c).

Definition all_ascii : list ascii := map ascii_of_nat (seq 0 256).

(** ** Sample runs *)

Module sample.

(** JSON text written with single quotes for the double ones. *)
Definition js (s : string) : string :=
  string_of_list_ascii
    (map (fun c => if Ascii.eqb c "'"%char then json.dquote else c)
       (list_ascii_of_string s)).

(** A stand-in for [strconv] that keeps the literal; the sample files
    hold no number that a conversion would change. *)
Definition ParseFloat (lit : string) : option string := Some lit.
Definition FormatFloat (lit : string) : string := lit.

Definition settings_text : string :=
  js "{'env': {'ANTHROPIC_BASE_URL': 'https://api.anthropic.com', 'ANTHROPIC_AUTH_TOKEN': 'sk-ant-0123456789', 'EDITOR': 'vi'}, 'model': 'opus'}".

(** A first run on Linux: no store file beside the executable, and a
    settings file that another program wrote; umask 022. *)
Definition first_run : World :=
  mkWorld "linux" (Some "/opt/ccc/ccc") {["HOME" := "/home/u"]}
    {["/home/u/.claude/settings.json" := mkFile settings_text perm_0644]}
    {["/home/u/.claude"]} 18 (fun _ _ => false) (fun _ _ old => old)
    (fun _ _ => None) ∅ [] [].

Definition stored_config : ConfigFile :=
  mkConfigFile (Some [mkConfiguration "a" "https://x.test" "12345678" true;
                      mkConfiguration "b" "https://y.test" "abcdefghijkl" false]).


(** A Collection whose only name is the byte 0xFF, which is not valid
    UTF-8. *)
Definition odd_config : ConfigFile :=
  mkConfigFile (Some [mkConfiguration (String (byte_of 255) "")
                        "https://x.test" "12345678" true]).

(** The first run with another settings file: its second member is
    taken for the [env] field (keys match without regard to case) and
    is not an object. *)
Definition mistyped : World :=
  with_files <["/home/u/.claude/settings.json"
               := mkFile (js "{'env': {'EDITOR': 'vi'}, 'ENV': []}") perm_0644]>
    first_run.

Definition profile_b : Configuration :=
  mkConfiguration "b" "https://y.test" "abcdefghijkl" false.

End sample.

(** * Properties *)

(** ** Strings *)

Lemma append_nil (b : string) : "" +:+ b = b.
Proof. reflexivity. Qed.

Lemma append_cons (c : ascii) (a b : string) :
  String c a +:+ b = String c (a +:+ b).
Proof. reflexivity. Qed.

Lemma length_append (a b : string) :
  String.length (a +:+ b) = String.length a + String.length b.
Proof.
  induction a as [|c a IH]; [reflexivity|].
  rewrite append_cons; simpl; now rewrite IH.
Qed.

Lemma length_Repeat_star (n : nat) : String.length (strings.Repeat "*" n) = n.
Proof.
  induction n as [|n IH]; [reflexivity|].
  change (S (String.length (strings.Repeat "*" n)) = S n). now rewrite IH.
Qed.

Lemma get_Repeat_star (n i : nat) :
  i < n -> String.get i (strings.Repeat "*" n) = Some "*"%char.
Proof.
  revert i; induction n as [|n IH]; intros i Hi; [lia|].
  change (strings.Repeat "*" (S n)) with (String "*" (strings.Repeat "*" n)).
  destruct i as [|i]; simpl; [reflexivity | apply IH; lia].
Qed.

Lemma length_substring (s : string) (n m : nat) :
  n + m <= String.length s -> String.length (substring n m s) = m.
Proof.
  revert n m; induction s as [|c s IH]; intros n m H; simpl in *.
  - destruct n, m; simpl; lia.
  - destruct n as [|n]; [destruct m as [|m]; simpl; [reflexivity|] |].
    + f_equal. apply (IH 0 m). lia.
    + apply IH. lia.
Qed.

Lemma get_append_l (a b : string) (i : nat) :
  i < String.length a -> String.get i (a +:+ b) = String.get i a.
Proof.
  revert i; induction a as [|c a IH]; intros i Hi; simpl in *; [lia|].
  destruct i; [reflexivity | apply IH; lia].
Qed.

Lemma get_append_r (a b : string) (i : nat) :
  String.get (String.length a + i) (a +:+ b) = String.get i b.
Proof.
  induction a as [|c a IH]; [reflexivity | rewrite append_cons; exact IH].
Qed.

Lemma get_substring (s : string) (n m i : nat) :
  i < m -> String.get i (substring n m s) = String.get (n + i) s.
Proof.
  revert n m i; induction s as [|c s IH]; intros n m i Hi.
  - destruct n, m; simpl; try lia; reflexivity.
  - destruct n as [|n]; simpl.
    + destruct m as [|m]; [lia|]. destruct i as [|i]; simpl; [reflexivity|].
      rewrite (IH 0 m i) by lia. reflexivity.
    + apply IH. exact Hi.
Qed.

(** C6.  [maskAPIKey] on a key of at most 8 bytes is a run of as many
    mask characters, whatever the key holds; on a longer key it is the
    first 4 bytes, then [len - 8] mask characters, then the last 4
    bytes. *)
Theorem maskAPIKey_correct (s : string) :
  let n := String.length s in
  (n <= 8 ->
     maskAPIKey s = strings.Repeat "*" n
     /\ String.length (maskAPIKey s) = n
     /\ (forall i, i < n -> String.get i (maskAPIKey s) = Some "*"%char))
  /\ (8 < n ->
     maskAPIKey s
       = substring 0 4 s +:+ strings.Repeat "*" (n - 8) +:+ substring (n - 4) 4 s
     /\ String.length (maskAPIKey s) = n
     /\ (forall i, i < 4 -> String.get i (maskAPIKey s) = String.get i s)
     /\ (forall i, 4 <= i < n - 4 -> String.get i (maskAPIKey s) = Some "*"%char)
     /\ (forall i, n - 4 <= i -> String.get i (maskAPIKey s) = String.get i s)).
Proof.
  intros n; unfold maskAPIKey, slice_str; fold n. split; intros Hn.
  - destruct (Nat.leb_spec n 8) as [_|?]; [|lia].
    split; [reflexivity|]. split; [apply length_Repeat_star|].
    intros i Hi. now apply get_Repeat_star.
  - destruct (Nat.leb_spec n 8) as [?|_]; [lia|].
    replace (4 - 0) with 4 by lia. replace (n - (n - 4)) with 4 by lia.
    assert (L1 : String.length (substring 0 4 s) = 4)
      by (apply length_substring; fold n; lia).
    assert (L3 : String.length (substring (n - 4) 4 s) = 4)
      by (apply length_substring; fold n; lia).
    split; [reflexivity|]. split; [|split; [|split]].
    + rewrite !length_append, L1, L3, length_Repeat_star. lia.
    + intros i Hi. rewrite get_append_l by lia. now rewrite get_substring.
    + intros i Hi. replace i with (String.length (substring 0 4 s) + (i - 4)) by lia.
      rewrite get_append_r, get_append_l by (rewrite length_Repeat_star; lia).
      apply get_Repeat_star; lia.
    + intros i Hi.
      destruct (Nat.lt_ge_cases i n) as [Hlt|Hge].
      * replace i with (String.length (substring 0 4 s) + (i - 4)) at 1 by lia.
        rewrite get_append_r.
        replace (i - 4) with (String.length (strings.Repeat "*" (n - 8)) + (i - (n - 4)))
          by (rewrite length_Repeat_star; lia).
        rewrite get_append_r, get_substring by lia. f_equal; lia.
      * assert (G : forall t j, String.length t <= j -> String.get j t = None).
        { induction t as [|c t IH]; intros j Hj; simpl in *; [now destruct j|].
          destruct j; [lia | apply IH; lia]. }
        rewrite !G; [reflexivity | fold n; lia |].
        rewrite !length_append, L1, L3, length_Repeat_star. lia.
Qed.

Lemma maskAPIKey_correct_witness :
  maskAPIKey "12345678" = "********"
  /\ maskAPIKey "sk-ant-0123456789" = "sk-a*********6789".
Proof.
  split.
  - exact (proj1 (proj1 (maskAPIKey_correct "12345678") ltac:(simpl; lia))).
  - exact (proj1 (proj2 (maskAPIKey_correct "sk-ant-0123456789") ltac:(simpl; lia))).
Defined.

(** ** The Collection *)

Lemma find_index_Some (l : list Configuration) (name : string) (i : nat) :
  find_index l name = Some i ->
  i < length l /\ Name (nth i l codec.zero) = name.
Proof.
  revert i; induction l as [|c l IH]; intros i; simpl; [discriminate|].
  destruct (String.eqb_spec (Name c) name) as [E|E].
  - intros [= <-]. split; [lia | exact E].
  - destruct (find_index l name) as [j|]; simpl; [|discriminate].
    intros [= <-]. destruct (IH j eq_refl) as [H1 H2]. split; [lia | exact H2].
Qed.

Lemma find_index_None (l : list Configuration) (name : string) :
  find_index l name = None <-> ~ In name (map Name l).
Proof.
  induction l as [|c l IH]; simpl; [tauto|].
  destruct (String.eqb_spec (Name c) name) as [E|E].
  - split; [discriminate | intros H; exfalso; apply H; now left].
  - destruct (find_index l name) as [j|]; simpl.
    + split; [discriminate|]. intros H. exfalso. apply H. right.
      destruct (in_dec string_dec name (map Name l)) as [I|I]; [exact I|].
      apply IH in I. discriminate.
    + split; [|reflexivity]. intros _ [H|H]; [now apply E|].
      now apply (proj1 IH).
Qed.

Lemma find_index_is_Some (l : list Configuration) (name : string) :
  (exists c, In c l /\ Name c = name) <-> exists i, find_index l name = Some i.
Proof.
  split.
  - intros (c & Hc & E). destruct (find_index l name) as [i|] eqn:F; [eauto|].
    apply find_index_None in F. exfalso. apply F. subst name. now apply in_map.
  - intros (i & F). apply find_index_Some in F as [Hi E].
    exists (nth i l codec.zero). split; [now apply nth_In | exact E].
Qed.

Lemma profiles_setActive (config : ConfigFile) (name : string) :
  profiles (setActiveConfiguration config name)
  = map (fun c => set_Active (String.eqb (Name c) name) c) (profiles config).
Proof. unfold profiles. destruct config as [[l|]]; reflexivity. Qed.

Lemma map_Name_setActive (l : list Configuration) (name : string) :
  map Name (map (fun c => set_Active (String.eqb (Name c) name) c) l) = map Name l.
Proof. rewrite map_map. reflexivity. Qed.

(** The profiles that are active after [setActiveConfiguration] are those
    with the name. *)
Lemma filter_Active_setActive (l : list Configuration) (name : string) :
  length (List.filter Active
            (map (fun c => set_Active (String.eqb (Name c) name) c) l))
  = count_occ string_dec (map Name l) name.
Proof.
  induction l as [|c l IH]; simpl; [reflexivity|].
  destruct (String.eqb_spec (Name c) name) as [E|E];
    destruct (string_dec (Name c) name) as [E'|E']; try contradiction;
    simpl; now rewrite IH.
Qed.

Lemma NoDup_count_le (l : list string) (x : string) :
  List.NoDup l -> count_occ string_dec l x <= 1.
Proof. intros H. now apply (proj1 (NoDup_count_occ string_dec l)). Qed.

Lemma NoDup_count_In (l : list string) (x : string) :
  List.NoDup l -> In x l -> count_occ string_dec l x = 1.
Proof.
  intros H I. pose proof (NoDup_count_le l x H).
  apply (count_occ_In string_dec) in I. lia.
Qed.






(** What each operation makes of the profiles. *)
Lemma added_profiles (config config' : ConfigFile) (name baseURL apiKey : string) :
  added config name baseURL apiKey = Ok config' ->
  ~ In name (names config)
  /\ profiles config'
     = profiles config
       ++ [mkConfiguration name baseURL apiKey (bool_decide (profiles config = []))].
Proof.
  unfold added, findConfiguration, names.
  destruct (find_index (profiles config) name) eqn:F; [discriminate|].
  intros [= <-]. split; [now apply find_index_None|].
  unfold profiles at 1, append; simpl. fold (profiles config).
  destruct (profiles config); reflexivity.
Qed.





(** C4.  [add] fails with [DuplicateName] exactly when a profile has the
    name, and fails in no other way; otherwise it appends one profile,
    active exactly when the Collection was empty, and keeps the others as
    they are. *)
Theorem added_correct (config : ConfigFile) (name baseURL apiKey : string) :
  (added config name baseURL apiKey = Err (DuplicateName name)
   <-> has_profile config name)
  /\ (forall e, added config name baseURL apiKey = Err e -> e = DuplicateName name)
  /\ (~ has_profile config name ->
      exists config',
        added config name baseURL apiKey = Ok config'
        /\ profiles config'
           = profiles config
             ++ [mkConfiguration name baseURL apiKey
                   (bool_decide (profiles config = []))]).
Proof.
  assert (D : has_profile config name \/ ~ has_profile config name).
  { unfold has_profile. destruct (findConfiguration config name) as [i|] eqn:F.
    - left. apply find_index_is_Some. eauto.
    - right. intros H. apply find_index_is_Some in H as [i H].
      unfold findConfiguration in F. congruence. }
  assert (S : forall i, findConfiguration config name = Some i -> has_profile config name).
  { intros i F. apply find_index_is_Some. eauto. }
  assert (N : findConfiguration config name = None -> ~ has_profile config name).
  { intros F H. apply find_index_is_Some in H as [i H].
    unfold findConfiguration in F. congruence. }
  split; [|split].
  - unfold added. destruct (findConfiguration config name) as [i|] eqn:F.
    + split; [intros _; now apply (S i) | reflexivity].
    + split; [discriminate | intros H; now apply N in H].
  - intros e. unfold added. destruct (findConfiguration config name); [|discriminate].
    now intros [= <-].
  - intros H. destruct (added config name baseURL apiKey) as [config'|e] eqn:A.
    + exists config'. split; [reflexivity|]. now apply added_profiles in A as [_ ->].
    + exfalso. apply H. unfold added in A.
      destruct (findConfiguration config name) as [i|] eqn:F; [now apply (S i) | discriminate].
Qed.

Lemma added_correct_witness :
  exists config',
    added (mkConfigFile (Some [])) "a" "https://x.test" "12345678" = Ok config'
    /\ profiles config' = [mkConfiguration "a" "https://x.test" "12345678" true].
Proof.
  apply (proj2 (proj2 (added_correct (mkConfigFile (Some [])) "a" "https://x.test" "12345678"))).
  intros (c & [] & _).
Defined.

Lemma setActive_idempotent (config : ConfigFile) (name : string) :
  setActiveConfiguration (setActiveConfiguration config name) name
  = setActiveConfiguration config name.
Proof.
  unfold setActiveConfiguration. destruct config as [[l|]]; simpl; [|reflexivity].
  do 2 f_equal. rewrite map_map. apply map_ext. intros c. reflexivity.
Qed.

(** C5.  On a Collection that holds a profile named [name], [setActive]
    succeeds; in its result the profiles are those of before, in order and
    with their name, endpoint and secret, each one active exactly when it
    has the name; and applying it again changes nothing. *)
Theorem setActive_correct (config : ConfigFile) (name : string) :
  has_profile config name ->
  exists config',
    activated config name = Ok config'
    /\ profiles config'
       = map (fun c => mkConfiguration (Name c) (BaseURL c) (APIKey c)
                         (String.eqb (Name c) name))
           (profiles config)
    /\ (forall c, In c (profiles config') ->
          (Name c = name -> Active c = true)
          /\ (Name c <> name -> Active c = false))
    /\ activated config' name = Ok config'.
Proof.
  intros H. pose proof H as H'. apply find_index_is_Some in H' as [i F].
  exists (setActiveConfiguration config name).
  unfold activated, findConfiguration at 1. rewrite F.
  split; [reflexivity|]. split; [apply profiles_setActive|]. split.
  - intros c. rewrite profiles_setActive. intros I.
    apply in_map_iff in I as (c0 & <- & _). simpl.
    destruct (String.eqb_spec (Name c0) name); split; congruence.
  - unfold findConfiguration. rewrite profiles_setActive.
    destruct (find_index (map _ (profiles config)) name) as [j|] eqn:F'.
    + now rewrite setActive_idempotent.
    + exfalso. apply find_index_None in F'. rewrite map_Name_setActive in F'.
      apply find_index_None in F'. congruence.
Qed.

Lemma setActive_correct_witness :
  exists config',
    activated (mkConfigFile (Some [mkConfiguration "a" "u" "k" true;
                                   mkConfiguration "b" "v" "l" false])) "b"
    = Ok config'
    /\ map Active (profiles config') = [false; true].
Proof.
  destruct (setActive_correct
              (mkConfigFile (Some [mkConfiguration "a" "u" "k" true;
                                   mkConfiguration "b" "v" "l" false])) "b")
    as (config' & H1 & H2 & _).
  - exists (mkConfiguration "b" "v" "l" false). split; [right; left|]; reflexivity.
  - exists config'. split; [exact H1|]. rewrite H2. reflexivity.
Defined.

(** C10.  [setActiveConfiguration] assumes nothing about the flags it
    finds: on any Collection with unique names that holds a profile named
    [name], however many profiles were active before, exactly one is
    active afterwards, the one named [name]. *)
Theorem setActive_repairs (config : ConfigFile) (name : string) :
  unique_names config ->
  has_profile config name ->
  active_count (setActiveConfiguration config name) = 1
  /\ (forall c, In c (profiles (setActiveConfiguration config name)) ->
        (Active c = true <-> Name c = name)).
Proof.
  intros U (c0 & I0 & E0). unfold active_count. rewrite profiles_setActive. split.
  - rewrite filter_Active_setActive. apply NoDup_count_In; [exact U|].
    rewrite <- E0. now apply in_map.
  - intros c I. apply in_map_iff in I as (c1 & <- & _). simpl.
    destruct (String.eqb_spec (Name c1) name); split; congruence.
Qed.

Lemma setActive_repairs_witness :
  active_count
    (setActiveConfiguration
       (mkConfigFile (Some [mkConfiguration "a" "u" "k" true;
                            mkConfiguration "b" "v" "l" true;
                            mkConfiguration "c" "w" "m" false])) "c") = 1.
Proof.
  apply setActive_repairs.
  - unfold unique_names, names; simpl.
    repeat constructor; simpl; intuition discriminate.
  - exists (mkConfiguration "c" "w" "m" false). split; [simpl; tauto | reflexivity].
Defined.

(** ** Text round trip *)

(** A rune that [DecodeRune] accepts lies within the input, and is read
    the same whatever follows it. *)
Lemma DecodeRune_prefix (s t : list ascii) (rn : N) (n : nat) :
  utf8.DecodeRune s = (rn, n) ->
  ((rn =? utf8.RuneError)%N && (n =? 1)%nat = false) ->
  s <> [] ->
  1 <= n <= length s /\ utf8.DecodeRune (take n s ++ t) = (rn, n).
Proof.
  unfold utf8.DecodeRune.
  destruct s as [|b0 s]; [congruence|]. intros H V _.
  destruct (byte_val b0 <? 128)%N eqn:E0.
  { injection H as <- <-. simpl. rewrite E0. split; [lia | reflexivity]. }
  destruct (in_range 194 223 b0) eqn:E1.
  { destruct s as [|b1 s]; [injection H as <- <-; discriminate V|].
    destruct (utf8.cont b1) eqn:C1; [|injection H as <- <-; discriminate V].
    injection H as <- <-. simpl. rewrite E0, E1, C1. split; [lia | reflexivity]. }
  destruct (in_range 224 239 b0) eqn:E2.
  { destruct s as [|b1 [|b2 s]]; try (injection H as <- <-; discriminate V).
    match type of H with (if ?c then _ else _) = _ => destruct c eqn:C end;
      [|injection H as <- <-; discriminate V].
    injection H as <- <-. simpl. rewrite E0, E1, E2, C. split; [lia | reflexivity]. }
  destruct (in_range 240 244 b0) eqn:E3.
  { destruct s as [|b1 [|b2 [|b3 s]]]; try (injection H as <- <-; discriminate V).
    match type of H with (if ?c then _ else _) = _ => destruct c eqn:C end;
      [|injection H as <- <-; discriminate V].
    injection H as <- <-. simpl. rewrite E0, E1, E2, E3, C. split; [lia | reflexivity]. }
  injection H as <- <-; discriminate V.
Qed.

Lemma DecodeRune_ascii (c : ascii) (r : list ascii) :
  (byte_val c <? 128)%N = true -> utf8.DecodeRune (c :: r) = (byte_val c, 1).
Proof. intros H. unfold utf8.DecodeRune. now rewrite H. Qed.

Lemma byte_of_val (c : ascii) : byte_of (byte_val c) = c.
Proof. apply ascii_N_embedding. Qed.

Lemma EncodeRune_ascii (c : ascii) :
  (byte_val c <? 128)%N = true -> utf8.EncodeRune (byte_val c) = [c].
Proof.
  intros H. unfold utf8.EncodeRune.
  replace (byte_val c <=? 127)%N with true; [now rewrite byte_of_val|].
  symmetry. apply N.leb_le. apply N.ltb_lt in H. lia.
Qed.

(** Skipping the continuation bytes of a rune. *)
Lemma coerce_from_skip (pre t : list ascii) :
  utf8.coerce_from (length pre) (pre ++ t) = utf8.coerce_from 0 t.
Proof. induction pre as [|c pre IH]; [reflexivity | exact IH]. Qed.

Lemma quote_from_skip (pre t : list ascii) :
  json.quote_from (length pre) (pre ++ t) = json.quote_from 0 t.
Proof. induction pre as [|c pre IH]; [reflexivity | exact IH]. Qed.

Lemma unquote_from_skip (pre t : list ascii) :
  json.unquote_from (length pre) (pre ++ t) = json.unquote_from 0 t.
Proof. induction pre as [|c pre IH]; [reflexivity | exact IH]. Qed.

Lemma valid_from_skip (pre t : list ascii) :
  utf8.valid_from (length pre) (pre ++ t) = utf8.valid_from 0 t.
Proof. induction pre as [|c pre IH]; [reflexivity | exact IH]. Qed.

(** A byte that opens no escape and ends no literal is read as the head
    of a rune. *)
Lemma unquote_raw (c : ascii) (r : list ascii) :
  json.is_byte 34 c = false -> json.is_byte 92 c = false ->
  (byte_val c <? 32)%N = false ->
  json.unquote_from 0 (c :: r)
  = '(out, rest) ← json.unquote_from (snd (utf8.DecodeRune (c :: r)) - 1) r;
    Some (utf8.head_bytes (c :: r) ++ out, rest).
Proof. intros H1 H2 H3. cbn [json.unquote_from]. now rewrite H1, H2, H3. Qed.


Lemma all_ascii_complete (c : ascii) : In c all_ascii.
Proof.
  unfold all_ascii. rewrite <- (ascii_nat_embedding c). apply in_map, in_seq.
  pose proof (nat_ascii_bounded c). lia.
Qed.

Lemma forall_ascii (P : ascii -> bool) :
  forallb P all_ascii = true -> forall c, P c = true.
Proof. intros H c. rewrite forallb_forall in H. apply H, all_ascii_complete. Qed.

(** What [unquote] makes of each escape the encoder writes. *)
Lemma unquote_escape_ascii (c : ascii) (tail : list ascii) :
  (byte_val c <? 128)%N = true -> json.htmlSafe c = false ->
  json.unquote_from 0 (json.escape_ascii c ++ tail)
  = '(out, rest) ← json.unquote_from 0 tail; Some (c :: out, rest).
Proof.
  destruct c as [[] [] [] [] [] [] [] []]; intros H1 H2;
    try discriminate H1; try discriminate H2; reflexivity.
Qed.

Lemma unquote_escape_invalid (tail : list ascii) :
  json.unquote_from 0
    ([json.backslash; "u"; "f"; "f"; "f"; "d"]%char ++ tail)
  = '(out, rest) ← json.unquote_from 0 tail;
    Some (utf8.EncodeRune utf8.RuneError ++ out, rest).
Proof. reflexivity. Qed.

Lemma unquote_escape_separator (rn : N) (tail : list ascii) :
  (rn =? 8232)%N || (rn =? 8233)%N = true ->
  json.unquote_from 0
    ([json.backslash; "u"; "2"; "0"; "2"; json.hex_digit (N.land rn 15)]%char ++ tail)
  = '(out, rest) ← json.unquote_from 0 tail;
    Some (utf8.EncodeRune rn ++ out, rest).
Proof.
  intros H. apply orb_true_iff in H as [H|H]; apply N.eqb_eq in H; subst rn;
    reflexivity.
Qed.

Lemma htmlSafe_raw (c : ascii) :
  json.htmlSafe c = true ->
  json.is_byte 34 c = false /\ json.is_byte 92 c = false
  /\ (byte_val c <? 32)%N = false.
Proof.
  intros H.
  assert (A : implb (json.htmlSafe c)
                (negb (json.is_byte 34 c) && negb (json.is_byte 92 c)
                 && negb (byte_val c <? 32)%N) = true).
  { revert c H. intros c _. revert c. apply forall_ascii. vm_compute. reflexivity. }
  rewrite H in A. simpl in A.
  destruct (json.is_byte 34 c), (json.is_byte 92 c), (byte_val c <? 32)%N;
    try discriminate A; auto.
Qed.

(** The decoder reads what the encoder wrote for a string as the string
    coerced to valid UTF-8. *)
Lemma unquote_quote_from (n : nat) :
  forall (s rest : list ascii),
    length s <= n ->
    json.unquote_from 0 (json.quote_from 0 s ++ json.dquote :: rest)
    = Some (utf8.coerce_from 0 s, rest).
Proof.
  induction n as [|n IH]; intros s rest L.
  { destruct s; [reflexivity | simpl in L; lia]. }
  destruct s as [|c r]; [reflexivity|].
  cbn [json.quote_from utf8.coerce_from].
  destruct (byte_val c <? 128)%N eqn:A.
  - (* ASCII *)
    assert (IHr := IH r rest ltac:(simpl in L; lia)).
    rewrite DecodeRune_ascii by exact A. cbn [snd]. 
    unfold utf8.head_bytes. rewrite DecodeRune_ascii by exact A. cbn [fst].
    rewrite EncodeRune_ascii by exact A.
    destruct (json.htmlSafe c) eqn:S.
    + destruct (htmlSafe_raw c S) as (H1 & H2 & H3).
      cbn [app]. rewrite unquote_raw by assumption.
      rewrite DecodeRune_ascii by exact A. cbn [snd].
      unfold utf8.head_bytes. rewrite DecodeRune_ascii by exact A. cbn [fst].
      rewrite EncodeRune_ascii by exact A.
      change (1 - 1) with 0. rewrite IHr. reflexivity.
    + rewrite <- app_assoc, unquote_escape_ascii by assumption.
      change (1 - 1) with 0. rewrite IHr. reflexivity.
  - destruct (utf8.DecodeRune (c :: r)) as [rn size] eqn:D.
    cbn [snd]. unfold utf8.head_bytes. rewrite D. cbn [fst].
    destruct ((rn =? utf8.RuneError)%N && (size =? 1)) eqn:V.
    + (* an invalid byte *)
      apply andb_true_iff in V as [V1 V2].
      apply N.eqb_eq in V1. apply Nat.eqb_eq in V2. subst rn size.
      assert (IHr := IH r rest ltac:(simpl in L; lia)).
      rewrite <- app_assoc, unquote_escape_invalid.
      change (1 - 1) with 0. rewrite IHr. reflexivity.
    + (* a rune of several bytes *)
      destruct (DecodeRune_prefix (c :: r) [] rn size D V ltac:(discriminate))
        as [[S1 S2] _].
      destruct size as [|k]; [lia|]. cbn [length] in S2.
      replace (S k - 1) with k by lia.
      assert (R : r = take k r ++ drop k r) by (symmetry; apply take_drop).
      assert (Lk : length (take k r) = k) by (rewrite length_take; lia).
      assert (IHr := IH (drop k r) rest
                       ltac:(rewrite length_drop; simpl in L; lia)).
      assert (Q : json.quote_from k r = json.quote_from 0 (drop k r)).
      { rewrite R at 1. rewrite <- Lk at 1. apply quote_from_skip. }
      assert (C : utf8.coerce_from k r = utf8.coerce_from 0 (drop k r)).
      { rewrite R at 1. rewrite <- Lk at 1. apply coerce_from_skip. }
      rewrite Q, C.
      destruct ((rn =? 8232)%N || (rn =? 8233)%N) eqn:Sep.
      * rewrite <- app_assoc, unquote_escape_separator by exact Sep.
        rewrite IHr. reflexivity.
      * cbn [take app].
        assert (H1 : json.is_byte 34 c = false /\ json.is_byte 92 c = false
                     /\ (byte_val c <? 32)%N = false).
        { unfold json.is_byte. apply N.ltb_ge in A.
          repeat split; [apply N.eqb_neq | apply N.eqb_neq | apply N.ltb_ge]; lia. }
        destruct H1 as (H1 & H2 & H3).
        rewrite unquote_raw by assumption.
        destruct (DecodeRune_prefix (c :: r)
                    (json.quote_from 0 (drop k r) ++ json.dquote :: rest)
                    rn (S k) D V ltac:(discriminate)) as [_ P].
        cbn [take app] in P. rewrite <- ?app_assoc in P. rewrite <- ?app_assoc.
        unfold utf8.head_bytes. rewrite P. cbn [fst snd].
        replace (S k - 1) with k by lia.
        rewrite <- Lk at 1. rewrite unquote_from_skip, IHr. reflexivity.
Qed.

(** ** Runes: encoding what was decoded *)

Lemma lor_add (a b k : N) :
  (a mod 2 ^ k = 0)%N -> (b < 2 ^ k)%N -> N.lor a b = (a + b)%N.
Proof.
  intros Ha Hb.
  assert (Z : N.land a b = 0%N).
  { apply N.bits_inj. intros i. rewrite N.land_spec, N.bits_0.
    destruct (N.lt_ge_cases i k) as [Hi|Hi].
    - rewrite <- (N.mod_pow2_bits_low a k i Hi), Ha, N.bits_0. reflexivity.
    - rewrite <- (N.mod_small b (2 ^ k) Hb), (N.mod_pow2_bits_high b k i Hi).
      apply andb_false_r. }
  rewrite N.add_nocarry_lxor by exact Z. symmetry. now apply N.lxor_lor.
Qed.

Lemma byte_val_bound (c : ascii) : (byte_val c < 256)%N.
Proof. apply N_ascii_bounded. Qed.

Lemma byte_of_eq (n : N) (c : ascii) : n = byte_val c -> byte_of n = c.
Proof. intros ->. apply ascii_N_embedding. Qed.

Lemma in_range_spec (lo hi : N) (c : ascii) :
  in_range lo hi c = true <-> (lo <= byte_val c <= hi)%N.
Proof.
  unfold in_range. rewrite andb_true_iff, !N.leb_le. tauto.
Qed.

Ltac Zify.zify_post_hook ::= Z.to_euclidean_division_equations.

Ltac bits_to_arith :=
  repeat first
    [ rewrite N.shiftl_mul_pow2
    | rewrite N.shiftr_div_pow2
    | rewrite (N.land_ones _ 6 : forall a, N.land a 63 = _)
    | progress change 63%N with (N.ones 6)
    | progress change 31%N with (N.ones 5)
    | progress change 15%N with (N.ones 4)
    | progress change 7%N with (N.ones 3)
    | rewrite N.land_ones ].

Lemma Encode_Decode_2 (x0 x1 : N) :
  (194 <= x0 <= 223)%N -> (128 <= x1 <= 191)%N ->
  utf8.EncodeRune (N.lor (N.shiftl (N.land x0 31) 6) (N.land x1 63))
  = [byte_of x0; byte_of x1].
Proof.
  intros H0 H1.
  change 31%N with (N.ones 5). change 63%N with (N.ones 6).
  rewrite !N.land_ones, N.shiftl_mul_pow2.
  rewrite (lor_add _ _ 6); [| rewrite N.Div0.mod_mul; reflexivity | apply N.mod_upper_bound; discriminate ].
  set (rn := (x0 mod 2 ^ 5 * 2 ^ 6 + x1 mod 2 ^ 6)%N).
  assert (B : (128 <= rn <= 2047)%N) by (subst rn; simpl N.pow; lia).
  unfold utf8.EncodeRune.
  destruct (N.leb_spec rn 127); [lia|]. destruct (N.leb_spec rn 2047); [|lia].
  rewrite !N.shiftr_div_pow2. change 63%N with (N.ones 6). rewrite N.land_ones.
  rewrite (lor_add 192 _ 6), (lor_add 128 _ 6);
    [ | reflexivity | apply N.mod_upper_bound; discriminate
      | reflexivity | subst rn; simpl N.pow in *; lia ].
  f_equal; [|f_equal]; f_equal; subst rn; simpl N.pow; lia.
Qed.

Lemma Encode_Decode_3 (x0 x1 x2 : N) :
  (224 <= x0 <= 239)%N ->
  ((if (x0 =? 224)%N then 160 else 128) <= x1
   <= (if (x0 =? 237)%N then 159 else 191))%N ->
  (128 <= x2 <= 191)%N ->
  utf8.EncodeRune
    (N.lor (N.shiftl (N.land x0 15) 12)
       (N.lor (N.shiftl (N.land x1 63) 6) (N.land x2 63)))
  = [byte_of x0; byte_of x1; byte_of x2].
Proof.
  intros H0 H1 H2.
  change 15%N with (N.ones 4). change 63%N with (N.ones 6).
  rewrite !N.land_ones, !N.shiftl_mul_pow2.
  rewrite (lor_add (x1 mod 2 ^ 6 * 2 ^ 6) (x2 mod 2 ^ 6) 6)
    by (simpl N.pow; lia).
  rewrite (lor_add (x0 mod 2 ^ 4 * 2 ^ 12) _ 12) by (simpl N.pow; lia).
  set (rn := (x0 mod 2 ^ 4 * 2 ^ 12 + (x1 mod 2 ^ 6 * 2 ^ 6 + x2 mod 2 ^ 6))%N).
  assert (E : rn = ((x0 - 224) * 4096 + (x1 - 128) * 64 + (x2 - 128))%N).
  { subst rn. simpl N.pow.
    destruct (N.eqb_spec x0 224), (N.eqb_spec x0 237); lia. }
  assert (B : (2048 <= rn <= 65535)%N /\ ~ (55296 <= rn <= 57343)%N).
  { rewrite E. destruct (N.eqb_spec x0 224), (N.eqb_spec x0 237); lia. }
  unfold utf8.EncodeRune, utf8.MaxRune.
  destruct (N.leb_spec rn 127); [lia|]. destruct (N.leb_spec rn 2047); [lia|].
  destruct (N.ltb_spec 1114111 rn); [lia|].
  destruct (N.leb_spec 55296 rn), (N.leb_spec rn 57343); try lia;
    cbn [orb andb]; (destruct (N.leb_spec rn 65535); [|lia]);
    rewrite !N.shiftr_div_pow2; change 63%N with (N.ones 6);
    rewrite !N.land_ones;
    rewrite (lor_add 224 _ 5), !(lor_add 128 _ 6);
    try reflexivity; try (apply N.mod_upper_bound; discriminate);
    try (simpl N.pow in *; lia);
    (f_equal; [|f_equal; [|f_equal]]; f_equal; rewrite E; simpl N.pow;
     destruct (N.eqb_spec x0 224), (N.eqb_spec x0 237); lia).
Qed.

Lemma Encode_Decode_4 (x0 x1 x2 x3 : N) :
  (240 <= x0 <= 244)%N ->
  ((if (x0 =? 240)%N then 144 else 128) <= x1
   <= (if (x0 =? 244)%N then 143 else 191))%N ->
  (128 <= x2 <= 191)%N -> (128 <= x3 <= 191)%N ->
  utf8.EncodeRune
    (N.lor (N.shiftl (N.land x0 7) 18)
       (N.lor (N.shiftl (N.land x1 63) 12)
          (N.lor (N.shiftl (N.land x2 63) 6) (N.land x3 63))))
  = [byte_of x0; byte_of x1; byte_of x2; byte_of x3].
Proof.
  intros H0 H1 H2 H3.
  change 7%N with (N.ones 3). change 63%N with (N.ones 6).
  rewrite !N.land_ones, !N.shiftl_mul_pow2.
  rewrite (lor_add (x2 mod 2 ^ 6 * 2 ^ 6) (x3 mod 2 ^ 6) 6)
    by (simpl N.pow; lia).
  rewrite (lor_add (x1 mod 2 ^ 6 * 2 ^ 12) _ 12) by (simpl N.pow; lia).
  rewrite (lor_add (x0 mod 2 ^ 3 * 2 ^ 18) _ 18) by (simpl N.pow; lia).
  set (rn := (x0 mod 2 ^ 3 * 2 ^ 18
              + (x1 mod 2 ^ 6 * 2 ^ 12 + (x2 mod 2 ^ 6 * 2 ^ 6 + x3 mod 2 ^ 6)))%N).
  assert (E : rn = ((x0 - 240) * 262144 + (x1 - 128) * 4096
                    + (x2 - 128) * 64 + (x3 - 128))%N).
  { subst rn. simpl N.pow.
    destruct (N.eqb_spec x0 240), (N.eqb_spec x0 244); lia. }
  assert (B : (65536 <= rn <= 1114111)%N).
  { rewrite E. destruct (N.eqb_spec x0 240), (N.eqb_spec x0 244); lia. }
  unfold utf8.EncodeRune, utf8.MaxRune.
  destruct (N.leb_spec rn 127); [lia|]. destruct (N.leb_spec rn 2047); [lia|].
  destruct (N.ltb_spec 1114111 rn); [lia|].
  destruct (N.leb_spec 55296 rn), (N.leb_spec rn 57343); try lia;
    cbn [orb andb]; (destruct (N.leb_spec rn 65535); [lia|]);
    rewrite !N.shiftr_div_pow2; change 63%N with (N.ones 6);
    rewrite !N.land_ones;
    rewrite (lor_add 240 _ 4), !(lor_add 128 _ 6);
    try reflexivity; try (apply N.mod_upper_bound; discriminate);
    try (simpl N.pow in *; lia);
    (f_equal; [|f_equal; [|f_equal; [|f_equal]]]; f_equal; rewrite E; simpl N.pow;
     destruct (N.eqb_spec x0 240), (N.eqb_spec x0 244); lia).
Qed.

(** An encoding that [DecodeRune] accepts is the encoding of its rune. *)
Lemma Encode_Decode (s : list ascii) (rn : N) (n : nat) :
  utf8.DecodeRune s = (rn, n) ->
  ((rn =? utf8.RuneError)%N && (n =? 1)%nat = false) ->
  s <> [] ->
  utf8.EncodeRune rn = take n s.
Proof.
  unfold utf8.DecodeRune, utf8.cont.
  destruct s as [|b0 s]; [congruence|]. intros H V _.
  destruct (byte_val b0 <? 128)%N eqn:E0.
  { injection H as <- <-. rewrite EncodeRune_ascii by exact E0. reflexivity. }
  destruct (in_range 194 223 b0) eqn:E1.
  { destruct s as [|b1 s]; [injection H as <- <-; discriminate V|].
    destruct (in_range 128 191 b1) eqn:C1; [|injection H as <- <-; discriminate V].
    injection H as <- <-. apply in_range_spec in E1, C1.
    rewrite Encode_Decode_2 by assumption.
    cbn [take]. now rewrite !byte_of_val. }
  destruct (in_range 224 239 b0) eqn:E2.
  { destruct s as [|b1 [|b2 s]]; try (injection H as <- <-; discriminate V).
    match type of H with (if ?c then _ else _) = _ => destruct c eqn:C end;
      [|injection H as <- <-; discriminate V].
    injection H as <- <-. apply andb_true_iff in C as [C1 C2].
    apply in_range_spec in E2, C1, C2.
    rewrite Encode_Decode_3 by assumption.
    cbn [take]. now rewrite !byte_of_val. }
  destruct (in_range 240 244 b0) eqn:E3.
  { destruct s as [|b1 [|b2 [|b3 s]]]; try (injection H as <- <-; discriminate V).
    match type of H with (if ?c then _ else _) = _ => destruct c eqn:C end;
      [|injection H as <- <-; discriminate V].
    injection H as <- <-. apply andb_true_iff in C as [C C3].
    apply andb_true_iff in C as [C1 C2].
    apply in_range_spec in E3, C1, C2, C3.
    rewrite Encode_Decode_4 by assumption.
    cbn [take]. now rewrite !byte_of_val. }
  injection H as <- <-; discriminate V.
Qed.

(** Coercion leaves valid UTF-8 as it is. *)
Lemma coerce_from_valid (n : nat) :
  forall s, length s <= n ->
    utf8.valid_from 0 s = true -> utf8.coerce_from 0 s = s.
Proof.
  induction n as [|n IH]; intros s L V.
  { destruct s; [reflexivity | simpl in L; lia]. }
  destruct s as [|c r]; [reflexivity|].
  cbn [utf8.valid_from utf8.coerce_from] in *. unfold utf8.head_bytes.
  destruct (utf8.DecodeRune (c :: r)) as [rn size] eqn:D. cbn [fst snd].
  apply andb_true_iff in V as [V1 V2]. apply negb_true_iff in V1.
  destruct (DecodeRune_prefix (c :: r) [] rn size D V1 ltac:(discriminate))
    as [[S1 S2] _].
  rewrite (Encode_Decode _ _ _ D V1) by discriminate.
  destruct size as [|k]; [lia|]. cbn [length] in S2. cbn [take].
  replace (S k - 1) with k in * by lia.
  assert (R : r = take k r ++ drop k r) by (symmetry; apply take_drop).
  assert (Lk : length (take k r) = k) by (rewrite length_take; lia).
  rewrite R in V2 at 1. rewrite <- Lk in V2 at 1. rewrite valid_from_skip in V2.
  assert (C : utf8.coerce_from k r = utf8.coerce_from 0 (drop k r)).
  { rewrite R at 1. rewrite <- Lk at 1. apply coerce_from_skip. }
  cbn [app]. f_equal. rewrite C, IH;
    [apply take_drop | rewrite length_drop; simpl in L; lia | exact V2].
Qed.

Lemma coerce_valid (s : string) :
  utf8.ValidString s = true -> utf8.coerce s = s.
Proof.
  unfold utf8.ValidString, utf8.coerce. intros V.
  rewrite (coerce_from_valid _ _ (Nat.le_refl _) V).
  apply string_of_list_ascii_of_string.
Qed.

(** ** Documents: reading what was printed *)

Lemma skip_ws_nl (d : nat) (s : list ascii) :
  json.skip_ws (json.nl d ++ s) = json.skip_ws s.
Proof.
  unfold json.nl. cbn [app json.skip_ws].
  change (json.is_ws json.newline) with true. cbn iota.
  induction (2 * d) as [|k IH]; [reflexivity | exact IH].
Qed.

Lemma parse_value_skip_ws (b : nat) (s : list ascii) :
  json.parse_value b s = json.parse_value b (json.skip_ws s).
Proof.
  assert (I : json.skip_ws (json.skip_ws s) = json.skip_ws s).
  { induction s as [|c s IH]; [reflexivity|]. simpl.
    destruct (json.is_ws c) eqn:E; [exact IH | simpl; now rewrite E]. }
  destruct b; cbn [json.parse_value]; now rewrite I.
Qed.

Lemma parse_value_nl (b d : nat) (s : list ascii) :
  json.parse_value b (json.nl d ++ s) = json.parse_value b s.
Proof.
  rewrite parse_value_skip_ws, skip_ws_nl, <- parse_value_skip_ws. reflexivity.
Qed.


Lemma print_head (d : nat) (v : json.value) (b : nat) :
  fits v b = true ->
  exists c t, json.print d v = c :: t /\ opens_value c = true.
Proof.
  destruct v as [|[]|lit|s|items|members]; simpl; intros F;
    try discriminate F;
    try (eexists _, _; split; [reflexivity | reflexivity]).
  - destruct items; eexists _, _; (split; [reflexivity | reflexivity]).
  - destruct members; eexists _, _; (split; [reflexivity | reflexivity]).
Qed.

Lemma skip_ws_print (d : nat) (v : json.value) (b : nat) (tail : list ascii) :
  fits v b = true ->
  exists c t, json.skip_ws (json.print d v ++ tail) = c :: t
              /\ json.is_byte 93 c = false /\ json.is_byte 125 c = false.
Proof.
  intros F. destruct (print_head d v b F) as (c & t & P & O).
  exists c, (t ++ tail). rewrite P. cbn [app json.skip_ws].
  unfold opens_value in O. repeat (apply andb_true_iff in O as [O ?]).
  repeat match goal with H : negb _ = true |- _ => apply negb_true_iff in H end.
  rewrite O. auto.
Qed.

Lemma unquote_quote (s : string) (rest : list ascii) :
  json.unquote_from 0 (tl (json.quote s) ++ rest)
  = Some (json.chars (utf8.coerce s), rest).
Proof.
  unfold json.quote. cbn [tl]. rewrite <- app_assoc. cbn [app].
  rewrite (unquote_quote_from _ _ _ (Nat.le_refl _)).
  unfold utf8.coerce, json.chars. now rewrite list_ascii_of_string_of_list_ascii.
Qed.

Lemma text_chars (s : string) : json.text (json.chars s) = s.
Proof. apply string_of_list_ascii_of_string. Qed.

Lemma chars_text (l : list ascii) : json.chars (json.text l) = l.
Proof. apply list_ascii_of_string_of_list_ascii. Qed.

Section loop_lemmas.
Variable b : nat.
Hypothesis IH : forall v d rest,
  fits v b = true ->
  json.parse_value b (json.print d v ++ rest) = Some (coerce_value v, rest).

Lemma parse_elems_print (d : nat) (rest : list ascii) (xs : list json.value) :
  forall (x : json.value) (fuel : nat),
    fits x b = true -> forallb (fun y => fits y b) xs = true ->
    S (length xs) <= fuel ->
    json.parse_elems (json.parse_value b) fuel
      (json.nl (S d) ++ json.print (S d) x
         ++ flat_map (fun y => ","%char :: json.nl (S d) ++ y)
              (map (json.print (S d)) xs)
         ++ json.nl d ++ "]"%char :: rest)
    = Some (coerce_value x :: map coerce_value xs, rest).
Proof.
  induction xs as [|y ys IHxs]; intros x fuel Fx Fxs L;
    (destruct fuel as [|f]; [lia|]); cbn [json.parse_elems];
    rewrite parse_value_nl, IH by exact Fx; cbn [mbind option_bind].
  - cbn [map flat_map app]. rewrite skip_ws_nl. reflexivity.
  - cbn [forallb] in Fxs. apply andb_true_iff in Fxs as [Fy Fys].
    cbn [map flat_map length] in *. rewrite <- !app_assoc. cbn [app json.skip_ws].
    change (json.is_ws ","%char) with false. cbn iota.
    change (json.is_byte 44 ","%char) with true. cbn iota.
    rewrite <- !app_assoc. rewrite (IHxs y f Fy Fys) by lia. reflexivity.
Qed.

Lemma parse_members_print (d : nat) (rest : list ascii)
    (ms : list (string * json.value)) :
  forall (m : string * json.value) (fuel : nat),
    fits (snd m) b = true -> forallb (fun kv => fits (snd kv) b) ms = true ->
    S (length ms) <= fuel ->
    json.parse_members (json.parse_value b) fuel
      (json.nl (S d)
         ++ (json.quote (fst m) ++ json.chars ": " ++ json.print (S d) (snd m))
         ++ flat_map (fun y => ","%char :: json.nl (S d) ++ y)
              (map (fun kv => json.quote (fst kv) ++ json.chars ": "
                              ++ json.print (S d) (snd kv)) ms)
         ++ json.nl d ++ "}"%char :: rest)
    = Some (map (fun kv => (utf8.coerce (fst kv), coerce_value (snd kv))) (m :: ms),
            rest).
Proof.
  induction ms as [|y ys IHms]; intros m fuel Fm Fms L;
    (destruct fuel as [|f]; [lia|]); cbn [json.parse_members];
    rewrite skip_ws_nl; rewrite <- !app_assoc;
    change (json.quote (fst m)) with (json.dquote :: tl (json.quote (fst m)));
    cbn [app json.skip_ws];
    change (json.is_ws json.dquote) with false; cbn iota;
    change (json.is_byte 34 json.dquote) with true; cbn iota;
    rewrite unquote_quote; cbn [mbind option_bind];
    cbn [json.chars list_ascii_of_string app json.skip_ws];
    change (json.is_ws ":"%char) with false; cbn iota;
    change (json.is_byte 58 ":"%char) with true; cbn iota;
    rewrite parse_value_skip_ws; cbn [json.skip_ws];
    change (json.is_ws " "%char) with true; cbn iota;
    rewrite <- parse_value_skip_ws, IH by exact Fm; cbn [mbind option_bind];
    rewrite text_chars.
  - cbn [map flat_map app]. rewrite skip_ws_nl. reflexivity.
  - cbn [forallb] in Fms. apply andb_true_iff in Fms as [Fy Fys].
    cbn [map flat_map length] in *. rewrite <- !app_assoc. cbn [app json.skip_ws].
    change (json.is_ws ","%char) with false. cbn iota.
    change (json.is_byte 44 ","%char) with true. cbn iota.
    specialize (IHms y f Fy Fys ltac:(lia)).
    rewrite <- !app_assoc in IHms. rewrite <- !app_assoc.
    cbn [json.chars list_ascii_of_string app] in IHms |- *.
    rewrite IHms. reflexivity.
Qed.
End loop_lemmas.

Lemma length_flat_map_ge {A} (f : A -> list ascii) (l : list A) (t : list ascii) :
  (forall a, 1 <= length (f a)) -> length l <= length (flat_map f l ++ t).
Proof.
  intros H. induction l as [|a l IH]; simpl; [lia|].
  rewrite <- app_assoc, length_app. specialize (H a).
  rewrite length_app in IH. rewrite length_app. lia.
Qed.

Lemma fuel_enough {A} (f : A -> list ascii) (l : list A)
    (pre mid post : list ascii) :
  1 <= length pre -> (forall a, 1 <= length (f a)) ->
  S (length l) <= length (pre ++ mid ++ flat_map f l ++ post).
Proof.
  intros P H. pose proof (length_flat_map_ge f l post H) as G.
  rewrite !length_app in *. lia.
Qed.

Lemma fuel_enough3 {A} (f : A -> list ascii) (l : list A)
    (pre m1 m2 m3 post : list ascii) :
  1 <= length pre -> (forall a, 1 <= length (f a)) ->
  S (length l) <= length (pre ++ m1 ++ m2 ++ m3 ++ flat_map f l ++ post).
Proof.
  intros P H. pose proof (length_flat_map_ge f l post H) as G.
  rewrite !length_app in *. lia.
Qed.

Lemma nl_length (d : nat) : 1 <= length (json.nl d).
Proof. unfold json.nl. simpl. lia. Qed.

(** The decoder reads a printed document as the document with its strings
    coerced to valid UTF-8. *)
Lemma parse_print (b : nat) :
  forall v d rest,
    fits v b = true ->
    json.parse_value b (json.print d v ++ rest) = Some (coerce_value v, rest).
Proof.
  assert (Scalars : forall b v d rest,
             match v with json.Array _ | json.Object _ => False | _ => True end ->
             fits v b = true ->
             json.parse_value b (json.print d v ++ rest)
             = Some (coerce_value v, rest)).
  { clear b. intros b v d rest S F.
    destruct v as [|[]|lit|s|items|members]; try contradiction;
      try discriminate F; try (destruct b; reflexivity).
    change (json.print d (json.Str s))
      with (json.dquote :: tl (json.quote s)).
    assert (E : json.parse_value b ((json.dquote :: tl (json.quote s)) ++ rest)
                = '(str, rest') ← json.unquote_from 0 (tl (json.quote s) ++ rest);
                  Some (json.Str (json.text str), rest'))
      by (destruct b; reflexivity).
    rewrite E, unquote_quote. cbn [mbind option_bind]. now rewrite text_chars. }
  induction b as [|b IHb]; intros v d rest F.
  - destruct v; try discriminate F; now apply Scalars.
  - destruct v as [| |lit|s|items|members]; try (now apply Scalars).
    + (* an array *)
      cbn [fits] in F. cbn [json.print coerce_value].
      destruct items as [|x xs]; [reflexivity|].
      cbn [forallb] in F. apply andb_true_iff in F as [Fx Fxs].
      cbn [map json.join_items app json.parse_value json.skip_ws].
      change (json.is_ws "["%char) with false. cbn iota.
      change (json.is_byte 34 "["%char) with false.
      change (json.is_byte 123 "["%char) with false.
      change (json.is_byte 91 "["%char) with true. cbn iota.
      rewrite <- !app_assoc. rewrite skip_ws_nl.
      match goal with |- context [json.skip_ws (json.print (S d) x ++ ?tail)] =>
        destruct (skip_ws_print (S d) x b tail Fx) as (c & t & SK & N1 & _)
      end.
      rewrite SK, N1.
      rewrite (parse_elems_print b IHb d rest xs x _ Fx Fxs).
      * reflexivity.
      * rewrite <- (length_map (json.print (S d)) xs).
        apply fuel_enough; [apply nl_length | intros; simpl; lia].
    + (* an object *)
      cbn [fits] in F. cbn [json.print coerce_value].
      destruct members as [|m ms]; [reflexivity|].
      cbn [forallb] in F. apply andb_true_iff in F as [Fm Fms].
      cbn [map json.join_items app json.parse_value json.skip_ws].
      change (json.is_ws "{"%char) with false. cbn iota.
      change (json.is_byte 34 "{"%char) with false.
      change (json.is_byte 123 "{"%char) with true. cbn iota.
      rewrite <- !app_assoc. rewrite skip_ws_nl.
      assert (SK : forall tail,
                 json.skip_ws (json.quote (fst m) ++ tail)
                 = json.dquote :: tl (json.quote (fst m)) ++ tail) by reflexivity.
      rewrite SK. change (json.is_byte 125 json.dquote) with false. cbn iota.
      pose proof (parse_members_print b IHb d rest ms m) as PM.
      rewrite <- !app_assoc in PM. rewrite PM; [reflexivity | exact Fm | exact Fms |].
      rewrite <- (length_map (fun kv => json.quote (fst kv) ++ json.chars ": "
                                        ++ json.print (S d) (snd kv)) ms).
      apply fuel_enough3; [apply nl_length | intros; simpl; lia].
Qed.

(** ** The store file: reading what was written *)

Lemma parse_render (v : json.value) :
  fits v json.maxNestingDepth = true ->
  json.parse (json.render v) = Some (coerce_value v).
Proof.
  intros F. unfold json.parse, json.render. rewrite chars_text.
  rewrite <- (app_nil_r (json.print 0 v)), parse_print by exact F. reflexivity.
Qed.

Lemma fits_of_ConfigFile (config : ConfigFile) :
  fits (codec.of_ConfigFile config) json.maxNestingDepth = true.
Proof.
  assert (E : exists b, json.maxNestingDepth = S (S (S b)))
    by (exists (json.maxNestingDepth - 3); vm_compute; reflexivity).
  destruct E as [b ->].
  destruct config as [[l|]]; [|reflexivity].
  cbn [codec.of_ConfigFile Configurations fits forallb snd]. rewrite andb_true_r.
  induction l as [|c l IH]; [reflexivity|]. cbn [map forallb]. now rewrite IH.
Qed.

Lemma into_coerced_Configuration (c : Configuration) :
  codec.into_Configuration (coerce_value (codec.of_Configuration c)) codec.zero
  = Some (coerce_Configuration c).
Proof. reflexivity. Qed.

Lemma into_coerced_elems (l : list Configuration) :
  codec.into_elems (map coerce_value (map codec.of_Configuration l)) []
  = Some (map coerce_Configuration l).
Proof.
  induction l as [|c l IH]; [reflexivity|].
  cbn [map codec.into_elems hd tl].
  rewrite into_coerced_Configuration. cbn [mbind option_bind].
  rewrite IH. reflexivity.
Qed.

Lemma into_coerced_ConfigFile (config : ConfigFile) :
  codec.into_ConfigFile (coerce_value (codec.of_ConfigFile config))
  = Some (coerce_ConfigFile config).
Proof.
  destruct config as [[l|]]; [|reflexivity].
  destruct l as [|c l]; [reflexivity|].
  unfold coerce_ConfigFile. cbn [Configurations fmap option_fmap option_map].
  cbn [codec.of_ConfigFile Configurations coerce_value map fst snd].
  change (utf8.coerce "configurations") with "configurations".
  cbn [codec.into_ConfigFile foldl fst snd].
  change (codec.selects "configurations" "configurations") with true.
  cbn [mbind option_bind codec.into_slice codec.mem].
  pose proof (into_coerced_elems (c :: l)) as E. cbn [map] in E.
  rewrite E. reflexivity.
Qed.

(** What [json.Unmarshal] reads back from what [json.MarshalIndent] wrote
    is the Collection with its strings coerced to valid UTF-8. *)
Lemma Unmarshal_MarshalIndent (config : ConfigFile) :
  codec.Unmarshal (codec.MarshalIndent config) = Some (coerce_ConfigFile config).
Proof.
  unfold codec.Unmarshal, codec.MarshalIndent.
  rewrite parse_render by apply fits_of_ConfigFile.
  cbn [mbind option_bind]. apply into_coerced_ConfigFile.
Qed.

Lemma coerce_valid_ConfigFile (config : ConfigFile) :
  valid_ConfigFile config = true -> coerce_ConfigFile config = config.
Proof.
  unfold valid_ConfigFile, coerce_ConfigFile, profiles.
  destruct config as [[l|]]; [|reflexivity]. simpl. intros V. do 2 f_equal.
  induction l as [|c l IH]; [reflexivity|].
  cbn [forallb map] in *. apply andb_true_iff in V as [Vc Vl].
  rewrite IH by exact Vl. f_equal.
  unfold valid_Configuration in Vc.
  apply andb_true_iff in Vc as [Vc V3]. apply andb_true_iff in Vc as [V1 V2].
  unfold coerce_Configuration. rewrite !coerce_valid by assumption.
  now destruct c.
Qed.

(** ** Running the commands *)

Ltac io_unfold :=
  unfold mbind, mret, IO_bind, IO_ret, fail, get, modify, lift, try,
    Printf, Warn in *.


Lemma getConfigPath_spec (w : World) :
  getConfigPath w
  = match store_path w with
    | Some path => (Ok path, w)
    | None => (Err ExecutablePathError, w)
    end.
Proof.
  unfold getConfigPath, store_path, os.Executable. io_unfold.
  destruct (executable w); reflexivity.
Qed.

Lemma saveConfig_spec (config : ConfigFile) (w : World) :
  saveConfig config w
  = match store_path w with
    | None => (Err ExecutablePathError, w)
    | Some path =>
        match os.WriteFile path (codec.MarshalIndent config) perm_0644 w with
        | (Ok true, w') => (Ok tt, w')
        | (_, w') => (Err WriteConfigError, w')
        end
    end.
Proof.
  unfold saveConfig. unfold mbind at 1, IO_bind. rewrite getConfigPath_spec.
  destruct (store_path w) as [path|]; [|reflexivity].
  unfold mbind, IO_bind, os.WriteFile.
  repeat case_match; simplify_eq; reflexivity.
Qed.

(** C8 (as amended).  A successful [saveConfig] leaves the serialized
    Collection in the store file; the permission it asks for is 0644: a
    file it creates gets mode 0644 less the bits of the umask, a file that
    exists keeps its mode. *)
Theorem saveConfig_mode (config : ConfigFile) (w w' : World) :
  saveConfig config w = (Ok tt, w') ->
  exists path f,
    store_path w = Some path
    /\ files w' !! path = Some f
    /\ data f = codec.MarshalIndent config
    /\ (files w !! path = None -> mode f = N.ldiff perm_0644 (umask w))
    /\ (forall old, files w !! path = Some old -> mode f = mode old).
Proof.
  rewrite saveConfig_spec. destruct (store_path w) as [path|]; [|discriminate].
  unfold os.WriteFile.
  destruct (bool_decide (path ∈ dirs w)); [discriminate|].
  destruct (refused w SysWrite path); [discriminate|].
  intros [= <-]. eexists path, _. split; [reflexivity|].
  cbn [files with_files]. rewrite lookup_insert_eq. split; [reflexivity|].
  split; [reflexivity|]. cbn [mode]. split.
  - intros ->. reflexivity.
  - intros old ->. reflexivity.
Qed.


















Section Properties.
Context {float64 : Type}.
Context (ParseFloat : string -> option float64).
Context (FormatFloat : float64 -> string).

(** With the store file there, [loadConfig] reads it and touches
    nothing. *)
Lemma loadConfig_existing (w : World) (path : string) :
  store_path w = Some path ->
  fst (os.Stat_IsNotExist path w) = Ok false ->
  loadConfig ParseFloat w
  = (match fst (os.ReadFile path w) with
     | Ok (os.ReadOk bytes) =>
         match codec.Unmarshal bytes with
         | Some configFile => Ok configFile
         | None => Err ParseConfigError
         end
     | _ => Err ReadConfigError
     end, w).
Proof.
  intros P S. unfold loadConfig. unfold mbind at 1, IO_bind.
  rewrite getConfigPath_spec, P.
  unfold os.Stat_IsNotExist, os.ReadFile in *. io_unfold. cbn [fst] in *.
  injection S as S. rewrite S.
  repeat case_match; reflexivity.
Qed.












(** C9 (as amended).  Saving a Collection and loading it back gives
    the Collection with every string coerced to valid UTF-8: the same
    Collection when its names, endpoints and secrets are valid UTF-8. *)
Theorem save_then_load (config : ConfigFile) (w w' : World) (path : string) :
  saveConfig config w = (Ok tt, w') ->
  store_path w = Some path ->
  refused w SysRead path = false ->
  loadConfig ParseFloat w' = (Ok (coerce_ConfigFile config), w')
  /\ (valid_ConfigFile config = true -> loadConfig ParseFloat w' = (Ok config, w')).
Proof.
  intros S P R.
  assert (L : loadConfig ParseFloat w' = (Ok (coerce_ConfigFile config), w')).
  { rewrite saveConfig_spec, P in S. unfold os.WriteFile in S.
    destruct (bool_decide (path ∈ dirs w)); [discriminate|].
    destruct (refused w SysWrite path); [discriminate|].
    injection S as <-.
    rewrite (loadConfig_existing _ path).
    - unfold os.ReadFile, get. cbn [fst refused with_files files].
      rewrite R, lookup_insert_eq. cbn [data].
      now rewrite Unmarshal_MarshalIndent.
    - exact P.
    - unfold os.Stat_IsNotExist, get. cbn [fst files with_files].
      rewrite lookup_insert_eq. rewrite (bool_decide_false (Some _ = None)) by discriminate.
      now rewrite andb_false_r. }
  split; [exact L|]. intros V. now rewrite coerce_valid_ConfigFile in L.
Qed.
End Properties.

Section Settings.
Context {float64 : Type}.
Context (ParseFloat : string -> option float64).
Context (FormatFloat : float64 -> string).

Lemma UserHomeDir_world (w w1 : World) (r : result (option string)) :
  os.UserHomeDir w = (r, w1) -> w1 = w.
Proof. unfold os.UserHomeDir. repeat case_match; congruence. Qed.

(** What activation makes of the [Env] map. *)
Lemma activated_env_lookup (conf : Configuration) (env : gmap string (any (float64 := float64))) :
  let env' := activated_env conf env in
  env' !! "ANTHROPIC_AUTH_TOKEN" = Some (AStr (APIKey conf))
  /\ env' !! "ANTHROPIC_BASE_URL" = Some (AStr (BaseURL conf))
  /\ env' !! "API_TIMEOUT_MS"
     = Some (default (AStr "3000000") (env !! "API_TIMEOUT_MS"))
  /\ env' !! "CLAUDE_CODE_DISABLE_NONESSENTIAL_TRAFFIC"
     = Some (default (AInt 1) (env !! "CLAUDE_CODE_DISABLE_NONESSENTIAL_TRAFFIC"))
  /\ (forall k, k <> "ANTHROPIC_AUTH_TOKEN" -> k <> "ANTHROPIC_BASE_URL" ->
                k <> "API_TIMEOUT_MS" ->
                k <> "CLAUDE_CODE_DISABLE_NONESSENTIAL_TRAFFIC" ->
                env' !! k = env !! k).
Proof.
  cbn zeta. unfold activated_env.
  set (e1 := <["ANTHROPIC_BASE_URL" := AStr (BaseURL conf)]>
               (<["ANTHROPIC_AUTH_TOKEN" := AStr (APIKey conf)]> env)).
  assert (T : e1 !! "API_TIMEOUT_MS" = env !! "API_TIMEOUT_MS")
    by (subst e1; now rewrite !lookup_insert_ne by discriminate).
  assert (C : e1 !! "CLAUDE_CODE_DISABLE_NONESSENTIAL_TRAFFIC"
              = env !! "CLAUDE_CODE_DISABLE_NONESSENTIAL_TRAFFIC")
    by (subst e1; now rewrite !lookup_insert_ne by discriminate).
  assert (A : e1 !! "ANTHROPIC_AUTH_TOKEN" = Some (AStr (APIKey conf)))
    by (subst e1; rewrite lookup_insert_ne by discriminate; apply lookup_insert_eq).
  assert (B : e1 !! "ANTHROPIC_BASE_URL" = Some (AStr (BaseURL conf)))
    by (subst e1; apply lookup_insert_eq).
  assert (O : forall k, k <> "ANTHROPIC_AUTH_TOKEN" -> k <> "ANTHROPIC_BASE_URL" ->
                        e1 !! k = env !! k)
    by (intros k ? ?; subst e1; now rewrite !lookup_insert_ne by congruence).
  clearbody e1. rewrite T.
  destruct (env !! "API_TIMEOUT_MS") as [t|] eqn:ET;
    [rewrite C | rewrite lookup_insert_ne, C by discriminate];
    (destruct (env !! "CLAUDE_CODE_DISABLE_NONESSENTIAL_TRAFFIC") as [d|] eqn:EC);
    cbn [default];
    rewrite ?lookup_insert_eq, ?(lookup_insert_ne _ "CLAUDE_CODE_DISABLE_NONESSENTIAL_TRAFFIC"),
      ?(lookup_insert_ne _ "API_TIMEOUT_MS"), ?lookup_insert_eq by discriminate;
    repeat split; try assumption; try congruence;
    try (intros k ? ? ? ?; rewrite ?lookup_insert_ne by congruence; now apply O).
Qed.

(** C2 (as amended).  On a settings file that parses, activation
    rewrites the file as a document with the single member [env]; in
    that map the two identity keys hold the secret and the endpoint of
    the profile, each of the two default keys keeps the value it had or
    gets its default when it was missing, and every other key of the
    map keeps its value.  The mode of the file is kept. *)
Theorem unix_settings_frame (conf : Configuration) (w w' : World)
    (path : string) (old : File) (settings : ClaudeSettings) :
  setUnixSettingsFile ParseFloat FormatFloat conf w = (Ok tt, w') ->
  settings_path w = Some path ->
  files w !! path = Some old ->
  UnmarshalSettings ParseFloat (data old) = Some settings ->
  let env := default ∅ (Env settings) in
  exists env' members,
    files w'
    = <[path := mkFile (json.render (json.Object [("env", json.Object members)]))
                  (mode old)]> (files w)
    /\ of_any FormatFloat (AMap env') = json.Object members
    /\ env' !! "ANTHROPIC_AUTH_TOKEN" = Some (AStr (APIKey conf))
    /\ env' !! "ANTHROPIC_BASE_URL" = Some (AStr (BaseURL conf))
    /\ env' !! "API_TIMEOUT_MS"
       = Some (default (AStr "3000000") (env !! "API_TIMEOUT_MS"))
    /\ env' !! "CLAUDE_CODE_DISABLE_NONESSENTIAL_TRAFFIC"
       = Some (default (AInt 1)
                 (env !! "CLAUDE_CODE_DISABLE_NONESSENTIAL_TRAFFIC"))
    /\ (forall k, k <> "ANTHROPIC_AUTH_TOKEN" -> k <> "ANTHROPIC_BASE_URL" ->
                  k <> "API_TIMEOUT_MS" ->
                  k <> "CLAUDE_CODE_DISABLE_NONESSENTIAL_TRAFFIC" ->
                  env' !! k = env !! k).
Proof.
  intros R P F U env.
  exists (activated_env conf env). eexists.
  split; [|split; [reflexivity | apply activated_env_lookup]].
  unfold settings_path in P.
  destruct (os.UserHomeDir w) as [h w0] eqn:H.
  pose proof (UserHomeDir_world _ _ _ H) as ->.
  cbn [fst] in P. destruct h as [[homeDir|]|]; try discriminate P.
  unfold setUnixSettingsFile in R.
  unfold mbind, IO_bind, mret, IO_ret, get, fail, Printf, Warn, modify in R.
  rewrite H in R. unfold os.MkdirAll in R.
  destruct (refused w SysMkdir _ || bool_decide (is_Some (files w !! _)));
    [discriminate R|].
  cbn [negb] in R. unfold os.ReadFile, get in R.
  cbn [refused files with_dirs GOOS dirs] in R.
  match type of P with Some ?p = _ => set (sp := p) in * end.
  assert (sp = path) as -> by congruence. clear P.
  rewrite F in R.
  destruct (refused w SysRead path); [discriminate R|].
  rewrite U in R. unfold os.WriteFile in R.
  cbn [refused files with_dirs GOOS dirs umask leftover] in R.
  destruct (bool_decide (path ∈ _)); [discriminate R|].
  destruct (refused w SysWrite path); [discriminate R|].
  rewrite F in R. cbn [negb] in R. injection R as <-.
  cbn [files with_stdout with_files with_dirs]. reflexivity.
Qed.
End Settings.

(** ** Domain-name extraction *)

(** [SplitByte] cuts at every separator and nowhere else: joining the
    fields with the separator gives the string back, and no field holds
    the separator. *)
Lemma SplitByte_nonempty (s : string) (sep : ascii) :
  1 <= length (strings.SplitByte s sep).
Proof.
  induction s as [|c s IH]; simpl; [lia|].
  destruct (Ascii.eqb c sep); simpl; [lia|].
  destruct (strings.SplitByte s sep); simpl in *; lia.
Qed.

Lemma SplitByte_join (s : string) (sep : ascii) :
  String.concat (String sep "") (strings.SplitByte s sep) = s.
Proof.
  induction s as [|c s IH]; [reflexivity|]. simpl.
  pose proof (SplitByte_nonempty s sep) as N.
  destruct (Ascii.eqb_spec c sep) as [->|E].
  - destruct (strings.SplitByte s sep) as [|h t] eqn:S; [simpl in N; lia|].
    cbn [String.concat]. rewrite append_nil. now rewrite <- IH.
  - destruct (strings.SplitByte s sep) as [|h t] eqn:S; [simpl in N; lia|].
    rewrite <- IH. destruct t; reflexivity.
Qed.

Lemma SplitByte_fields (s : string) (sep : ascii) (f : string) :
  In f (strings.SplitByte s sep) -> ~ In sep (list_ascii_of_string f).
Proof.
  revert f; induction s as [|c s IH]; intros f; simpl.
  - intros [<-|[]] [].
  - destruct (Ascii.eqb_spec c sep) as [->|E].
    + intros [<-|I]; [intros [] | now apply IH].
    + pose proof (SplitByte_nonempty s sep) as N.
      destruct (strings.SplitByte s sep) as [|h t] eqn:S; [simpl in N; lia|].
      intros [<-|I].
      * simpl. intros [E'|I']; [congruence|]. now apply (IH h); [left|].
      * apply IH. now right.
Qed.

(** [TrimPrefix] takes the prefix off a string that has it and leaves
    any other string as it is. *)
Lemma substring_all (s : string) : substring 0 (String.length s) s = s.
Proof. induction s as [|c s IH]; simpl; [reflexivity | now rewrite IH]. Qed.

Lemma TrimPrefix_www (h : string) :
  strings.TrimPrefix ("www." +:+ h) "www." = h.
Proof.
  change ("www." +:+ h) with (String "w" (String "w" (String "w" (String "." h)))).
  unfold strings.TrimPrefix, strings.HasPrefix. simpl.
  rewrite Nat.sub_0_r. destruct h; apply substring_all.
Qed.

Lemma TrimPrefix_other (s p : string) :
  strings.HasPrefix s p = false -> strings.TrimPrefix s p = s.
Proof. unfold strings.TrimPrefix. now intros ->. Qed.



(** ** The commands on the sample worlds *)



Lemma saveConfig_mode_witness :
  exists f,
    files (snd (saveConfig sample.stored_config sample.first_run))
      !! "/opt/ccc/ccc-config.json" = Some f
    /\ mode f = perm_0644.
Proof.
  destruct (saveConfig_mode sample.stored_config sample.first_run
              (snd (saveConfig sample.stored_config sample.first_run)))
    as (path & f & P & F & _ & M & _).
  - vm_compute. reflexivity.
  - injection P as <-. exists f. split; [exact F|]. rewrite M; reflexivity.
Defined.

(** C8, as the claim states it, fails: the store file that [saveConfig]
    creates has mode 0644 (420), not 0600 (384); the group and the others
    can read it. *)
Lemma saveConfig_mode_counterexample :
  exists w' f,
    saveConfig sample.stored_config sample.first_run = (Ok tt, w')
    /\ files sample.first_run !! "/opt/ccc/ccc-config.json" = None
    /\ files w' !! "/opt/ccc/ccc-config.json" = Some f
    /\ mode f = perm_0644
    /\ mode f <> perm_0600
    /\ N.land (mode f) 36 (* 044: read for the group and the others *) = 36%N.
Proof.
  eexists _, _. split; [vm_compute; reflexivity|].
  split; [vm_compute; reflexivity|].
  split; [vm_compute; reflexivity|].
  split; [reflexivity|]. split; [discriminate | reflexivity].
Qed.



Lemma save_then_load_witness :
  loadConfig sample.ParseFloat (snd (saveConfig sample.stored_config sample.first_run))
  = (Ok sample.stored_config,
     snd (saveConfig sample.stored_config sample.first_run)).
Proof.
  apply (save_then_load sample.ParseFloat sample.stored_config sample.first_run _
           "/opt/ccc/ccc-config.json").
  - vm_compute. reflexivity.
  - vm_compute. reflexivity.
  - reflexivity.
  - vm_compute. reflexivity.
Defined.

(** C9, as the claim states it, fails: a name that is not valid UTF-8 is
    written as U+FFFD and read back as the three bytes of U+FFFD. *)
Lemma save_then_load_counterexample :
  exists w' config',
    saveConfig sample.odd_config sample.first_run = (Ok tt, w')
    /\ loadConfig sample.ParseFloat w' = (Ok config', w')
    /\ names sample.odd_config = [String (byte_of 255) ""]
    /\ names config' = [String (byte_of 239) (String (byte_of 191) (String (byte_of 189) ""))]
    /\ config' <> sample.odd_config.
Proof.
  eexists _, _. split; [vm_compute; reflexivity|].
  split; [vm_compute; reflexivity|].
  split; [reflexivity|]. split; [reflexivity | discriminate].
Qed.

Lemma unix_settings_frame_witness :
  exists env' : gmap string (@any string),
    env' !! "EDITOR" = Some (AStr "vi")
    /\ env' !! "ANTHROPIC_BASE_URL" = Some (AStr "https://y.test")
    /\ env' !! "API_TIMEOUT_MS" = Some (AStr "3000000").
Proof.
  destruct (unix_settings_frame sample.ParseFloat sample.FormatFloat sample.profile_b sample.first_run
              (snd (setUnixSettingsFile sample.ParseFloat sample.FormatFloat sample.profile_b sample.first_run))
              "/home/u/.claude/settings.json"
              (mkFile sample.settings_text perm_0644)
              (mkClaudeSettings
                 (Some (<["ANTHROPIC_BASE_URL" := AStr "https://api.anthropic.com"]>
                       (<["ANTHROPIC_AUTH_TOKEN" := AStr "sk-ant-0123456789"]>
                       (<["EDITOR" := AStr "vi"]> ∅))))))
    as (env' & members & _ & _ & _ & U & T & _ & O).
  - vm_compute. reflexivity.
  - vm_compute. reflexivity.
  - vm_compute. reflexivity.
  - vm_compute. reflexivity.
  - exists env'. split; [|split].
    + rewrite O by discriminate. vm_compute. reflexivity.
    + exact U.
    + rewrite T. vm_compute. reflexivity.
Defined.

(** C2, as the claim states it, fails: the member [model] of the settings
    file is not in the file that activation writes.  And a settings file
    that [json.Unmarshal] refuses is replaced by the defaults, with the
    keys its [env] map had. *)
Lemma unix_settings_frame_counterexample :
  (exists w',
    setUnixSettingsFile sample.ParseFloat sample.FormatFloat sample.profile_b sample.first_run = (Ok tt, w')
    /\ (data <$> files sample.first_run !! "/home/u/.claude/settings.json")
         ≫= json.parse
       = Some (json.Object
                 [("env", json.Object
                            [("ANTHROPIC_BASE_URL", json.Str "https://api.anthropic.com");
                             ("ANTHROPIC_AUTH_TOKEN", json.Str "sk-ant-0123456789");
                             ("EDITOR", json.Str "vi")]);
                  ("model", json.Str "opus")])
    /\ (data <$> files w' !! "/home/u/.claude/settings.json") ≫= json.parse
       = Some (json.Object
                 [("env", json.Object
                            [("ANTHROPIC_AUTH_TOKEN", json.Str "abcdefghijkl");
                             ("ANTHROPIC_BASE_URL", json.Str "https://y.test");
                             ("API_TIMEOUT_MS", json.Str "3000000");
                             ("CLAUDE_CODE_DISABLE_NONESSENTIAL_TRAFFIC", json.Number "1");
                             ("EDITOR", json.Str "vi")])]))
  /\ exists w',
    setUnixSettingsFile sample.ParseFloat sample.FormatFloat sample.profile_b sample.mistyped = (Ok tt, w')
    /\ (data <$> files sample.mistyped !! "/home/u/.claude/settings.json")
         ≫= json.parse
       = Some (json.Object
                 [("env", json.Object [("EDITOR", json.Str "vi")]);
                  ("ENV", json.Array [])])
    /\ stderr w' = [SettingsUnparsable]
    /\ (data <$> files w' !! "/home/u/.claude/settings.json") ≫= json.parse
       = Some (json.Object
                 [("env", json.Object
                            [("ANTHROPIC_AUTH_TOKEN", json.Str "abcdefghijkl");
                             ("ANTHROPIC_BASE_URL", json.Str "https://y.test");
                             ("API_TIMEOUT_MS", json.Str "3000000");
                             ("CLAUDE_CODE_DISABLE_NONESSENTIAL_TRAFFIC",
                              json.Number "1")])]).
Proof.
  split.
  - eexists. split; [vm_compute; reflexivity|].
    split; vm_compute; reflexivity.
  - eexists. split; [vm_compute; reflexivity|].
    split; [vm_compute; reflexivity|]. split; vm_compute; reflexivity.
Qed.
